(** * Fit scoring of the recruiting platform backend

    A shallow embedding of [apps/backend/src/services/fit_score_service.py]
    (class [FitScoreService]) together with the parts of [models.py] it
    reads and writes, and the properties its specification states.

    Conventions of the embedding:
    - a Python [float] is a rational ([Q]); arithmetic is exact, so rounding
      of binary floating point is not represented;
    - a Python [str] is a [string]; [lower] and [strip] follow [str.lower]
      and [str.strip] on ASCII text;
    - a nullable column or a Python value that may be [None] is an [option];
      a key of a JSON dictionary is a [jfield]: absent, present with [null],
      or present with a value;
    - the database session is an explicit state ([Db]), the clock, the UUID
      generator, the chat-completion client and the builtin [float] are the
      fields of an environment ([Env]);
    - an identifier is the UUID value a row holds, written as a string; a
      text of a request is read into an identifier by the database
      ([UuidSyntax]) where the route is modelled;
    - calls to [logger] are not represented. *)

From Stdlib Require Import List String Ascii Bool Arith ZArith QArith Qminmax Lia Lqa.
From Stdlib Require Import Permutation Sorted.
Import ListNotations.

Open Scope string_scope.
Open Scope list_scope.
Open Scope Q_scope.

(** ** Python primitives *)

Module Py.

(** [x < y] and [x >= y] on numbers. *)
Definition ltb (x y : Q) : bool :=
  match x ?= y with Lt => true | _ => false end.

Definition geb (x y : Q) : bool := Qle_bool y x.

Definition gtb (x y : Q) : bool := ltb y x.

(** Truth value of a number that may be [None]: [None] and [0] are false. *)
Definition truthy_num (x : option Q) : bool :=
  match x with
  | Some q => negb (Qeq_bool q 0)
  | None => false
  end.

(** Truth value of a string that may be [None]: [None] and [""] are false. *)
Definition truthy_str (x : option string) : bool :=
  match x with
  | Some EmptyString => false
  | Some _ => true
  | None => false
  end.

(** Truth value of a list that may be [None]. *)
Definition truthy_list {A} (x : option (list A)) : bool :=
  match x with
  | Some (_ :: _) => true
  | _ => false
  end.

(** [x or d]. *)
Definition or_list {A} (x : option (list A)) (d : list A) : list A :=
  match x with
  | Some (a :: l) => a :: l
  | _ => d
  end.

Definition or_num (x : option Q) (d : Q) : Q :=
  if truthy_num x then match x with Some q => q | None => d end else d.

(** [str.lower] on ASCII letters. *)
Definition lower_char (c : ascii) : ascii :=
  let n := nat_of_ascii c in
  if (65 <=? n)%nat && (n <=? 90)%nat then ascii_of_nat (n + 32) else c.

Fixpoint lower (s : string) : string :=
  match s with
  | EmptyString => EmptyString
  | String c t => String (lower_char c) (lower t)
  end.

(** [str.isspace] on ASCII: tab, line feed, vertical tab, form feed,
    carriage return, the four separators 28..31 and the space. *)
Definition is_space (c : ascii) : bool :=
  let n := nat_of_ascii c in
  ((9 <=? n)%nat && (n <=? 13)%nat) || ((28 <=? n)%nat && (n <=? 32)%nat).

Fixpoint lstrip (s : string) : string :=
  match s with
  | String c t => if is_space c then lstrip t else s
  | EmptyString => EmptyString
  end.

(** Drops the trailing white space: a character is kept when it is not
    white space or when something is kept after it. *)
Fixpoint rstrip (s : string) : string :=
  match s with
  | EmptyString => EmptyString
  | String c t =>
      match rstrip t with
      | EmptyString => if is_space c then EmptyString else String c EmptyString
      | r => String c r
      end
  end.

Definition strip (s : string) : string := rstrip (lstrip s).

(** [needle in hay] on strings. *)
Fixpoint contains (needle hay : string) : bool :=
  prefix needle hay ||
  match hay with
  | EmptyString => false
  | String _ t => contains needle t
  end.

(** A parsed [float]: finite, or one of the three special values that
    [float("inf")], [float("-inf")] and [float("nan")] produce. *)
Inductive pyfloat : Type :=
| Finite (q : Q)
| PosInf
| NegInf
| NaN.

(** [a < b] on floats, false as soon as one side is [nan]. *)
Definition float_ltb (a b : pyfloat) : bool :=
  match a, b with
  | NaN, _ | _, NaN => false
  | Finite x, Finite y => ltb x y
  | NegInf, NegInf => false
  | NegInf, _ => true
  | _, PosInf => match a with PosInf => false | _ => true end
  | _, _ => false
  end.

(** [min(a, b)]: the first argument unless the second is smaller. *)
Definition min (a b : pyfloat) : pyfloat := if float_ltb b a then b else a.

(** [max(a, b)]: the first argument unless the second is greater. *)
Definition max (a b : pyfloat) : pyfloat := if float_ltb a b then b else a.

End Py.

(** ** Data model ([models.py]) *)

(** A key of a JSON dictionary. *)
Inductive jfield (A : Type) : Type :=
| KeyAbsent
| JNull
| JVal (a : A).
Arguments KeyAbsent {A}.
Arguments JNull {A}.
Arguments JVal {A} a.

(** [key in d]. *)
Definition has_key {A} (f : jfield A) : bool :=
  match f with KeyAbsent => false | _ => true end.

(** [d[key]] once [key in d] holds: [None] for [null]. *)
Definition item {A} (f : jfield A) : option A :=
  match f with JVal a => Some a | _ => None end.

(** [d.get(key, default)]. *)
Definition get {A} (f : jfield A) (default : A) : option A :=
  match f with
  | KeyAbsent => Some default
  | JNull => None
  | JVal a => Some a
  end.

(** The keys of [Job.parsed_requirements] the scorer reads.  An empty
    dictionary is the record with the three keys absent: the scorer only
    tests the dictionary's truth value in conjunction with a key lookup. *)
Record ParsedRequirements : Type := {
  required_skills : jfield (list string);
  experience_required : jfield Q;
  education_required : jfield string
}.

(** The keys of [Candidate.resume_parsed] the scorer reads. *)
Record ResumeParsed : Type := {
  education : jfield (list string);
  summary : jfield string
}.

Record Job : Type := {
  job_id_of : string;
  job_organization_id : string;
  title : string;
  description : string;
  requirements : option (list string);
  parsed_requirements : option ParsedRequirements;
  job_location : option string
}.

Record Candidate : Type := {
  candidate_id_of : string;
  candidate_organization_id : string;
  first_name : string;
  last_name : string;
  resume_parsed : option ResumeParsed;
  skills : option (list string);
  experience_years : option Q;
  current_company : option string;
  current_title : option string;
  candidate_location : option string
}.

(** A row of [applications]; the columns the scorer does not touch are left
    out. [fit_score_details] holds the dictionary written by the scorer. *)
Record Scores : Type := {
  skill_match : Q;
  experience_match : Q;
  education_match : Q;
  location_match : Q;
  culture_fit : Q
}.

Record FitScoreDetails : Type := {
  details_scores : Scores;
  details_weights : Scores;
  calculated_at : Z
}.

Record Application : Type := {
  application_id_of : string;
  application_job_id : string;
  application_candidate_id : string;
  application_organization_id : string;
  fit_score : option Q;
  fit_score_details : option FitScoreDetails
}.

(** The session: the three tables the service queries, in storage order. *)
Record Db : Type := {
  jobs : list Job;
  candidates : list Candidate;
  applications : list Application
}.

(** ** The world outside the service *)

(** Outcome of [client.chat.completions.create(...)] followed by reading
    [response.choices[0].message.content]: an exception (network error,
    timeout, no choice), or the content, which the API may leave [None]. *)
Inductive ChatOutcome : Type :=
| ChatRaises
| ChatContent (content : option string).

Record Env : Type := {
  (** the completion for the prompt built from the job description and the
      candidate summary *)
  chat_completions_create : string -> string -> ChatOutcome;
  (** the builtin [float(text)]; [None] stands for [ValueError] *)
  float : string -> option Py.pyfloat;
  (** the value [uuid.uuid4()] gives a new row *)
  uuid4 : string;
  (** the two readings of [datetime.utcnow()] of one call, in order *)
  utcnow_details : Z;
  utcnow_response : Z
}.

(** ** Sub-scores *)

(** The increment of [matched_skills] the inner loop makes for one required
    skill: the loop stops at the first candidate skill that is equal or that
    matches as a substring. *)
Fixpoint skill_inner_loop (job_skill_lower : string) (candidate_skills : list string) : Q :=
  match candidate_skills with
  | [] => 0
  | candidate_skill :: rest =>
      let candidate_skill_lower := Py.lower candidate_skill in
      if (job_skill_lower =? candidate_skill_lower)%string then 1
      else if Py.contains job_skill_lower candidate_skill_lower
              || Py.contains candidate_skill_lower job_skill_lower then 0.8
      else skill_inner_loop job_skill_lower rest
  end.

(** [job_skills] as the first lines of [_calculate_skill_match] select it;
    [None] when the key holds [null]. *)
Definition job_skills_of (job : Job) : option (list string) :=
  match parsed_requirements job with
  | Some p =>
      if has_key (required_skills p) then item (required_skills p)
      else if Py.truthy_list (requirements job) then requirements job
      else Some []
  | None =>
      if Py.truthy_list (requirements job) then requirements job else Some []
  end.

Definition _calculate_skill_match (job : Job) (candidate : Candidate) : Q :=
  let job_skills := job_skills_of job in
  let candidate_skills := Py.or_list (skills candidate) [] in
  if negb (Py.truthy_list job_skills) || negb (Py.truthy_list (Some candidate_skills))
  then 0.0
  else
    let job_skills := Py.or_list job_skills [] in
    let total_required_skills := List.length job_skills in
    let matched_skills :=
      fold_left
        (fun matched_skills job_skill =>
           matched_skills + skill_inner_loop (Py.lower job_skill) candidate_skills)
        job_skills 0 in
    let skill_match_score :=
      if (0 <? total_required_skills)%nat
      then matched_skills / inject_Z (Z.of_nat total_required_skills)
      else 0 in
    if Py.ltb 1.0 skill_match_score then 1.0 else skill_match_score.

Definition required_exp_of (job : Job) : option Q :=
  match parsed_requirements job with
  | Some p => if has_key (experience_required p) then item (experience_required p) else None
  | None => None
  end.

Definition _calculate_experience_match (job : Job) (candidate : Candidate) : Q :=
  let required_exp := required_exp_of job in
  let candidate_exp := experience_years candidate in
  if negb (Py.truthy_num required_exp) || negb (Py.truthy_num candidate_exp)
  then 0.5
  else
    match required_exp, candidate_exp with
    | Some required_exp, Some candidate_exp =>
        if Py.geb candidate_exp required_exp then 1.0
        else candidate_exp / required_exp
    | _, _ => 0.5
    end.

(** The dictionary [education_levels], in insertion order. *)
Definition education_levels : list (string * Z) :=
  [ ("high school", 1%Z); ("associate", 2%Z); ("bachelor", 3%Z);
    ("master", 4%Z); ("phd", 5%Z); ("mba", 4%Z) ].

Definition required_edu_of (job : Job) : option string :=
  match parsed_requirements job with
  | Some p => if has_key (education_required p) then item (education_required p) else None
  | None => None
  end.

(** [education_list[0]] when the list is there and not empty. *)
Definition candidate_edu_of (candidate : Candidate) : option string :=
  match resume_parsed candidate with
  | Some rp =>
      if has_key (education rp) then
        match item (education rp) with
        | Some (first :: _) => Some first
        | _ => None
        end
      else None
  | None => None
  end.

(** One turn of the loop over [education_levels.items()]: each level is
    overwritten when the entry's name occurs in the text. *)
Definition education_step (required_edu candidate_edu : string)
  (levels : Z * Z) (entry : string * Z) : Z * Z :=
  let (level, value) := entry in
  let (required_level, candidate_level) := levels in
  let required_level :=
    if Py.contains level (Py.lower required_edu) then value else required_level in
  let candidate_level :=
    if Py.contains level (Py.lower candidate_edu) then value else candidate_level in
  (required_level, candidate_level).

(** The whole loop: nothing stops it, every entry is tried. *)
Definition education_loop (required_edu candidate_edu : string) : Z * Z :=
  fold_left (education_step required_edu candidate_edu) education_levels (0%Z, 0%Z).

Definition _calculate_education_match (job : Job) (candidate : Candidate) : Q :=
  let required_edu := required_edu_of job in
  let candidate_edu := candidate_edu_of candidate in
  if negb (Py.truthy_str required_edu) || negb (Py.truthy_str candidate_edu)
  then 0.5
  else
    match required_edu, candidate_edu with
    | Some required_edu, Some candidate_edu =>
        let (required_level, candidate_level) := education_loop required_edu candidate_edu in
        if (candidate_level >=? required_level)%Z then 1.0
        else if (required_level >? 0)%Z
             then inject_Z candidate_level / inject_Z required_level
             else 0
    | _, _ => 0.5
    end.

Definition _calculate_location_match (job : Job) (candidate : Candidate) : Q :=
  let job_location := job_location job in
  let candidate_location := candidate_location candidate in
  if negb (Py.truthy_str job_location) || negb (Py.truthy_str candidate_location)
  then 0.5
  else
    match job_location, candidate_location with
    | Some job_location, Some candidate_location =>
        let job_location := Py.strip (Py.lower job_location) in
        let candidate_location := Py.strip (Py.lower candidate_location) in
        if (job_location =? candidate_location)%string then 1.0
        else if Py.contains job_location candidate_location
                || Py.contains candidate_location job_location then 0.8
        else if Py.contains "remote" job_location
                || Py.contains "remote" candidate_location then 0.9
        else 0.3
    | _, _ => 0.5
    end.

(** The number [max(0, min(1, score))] evaluates to. *)
Definition clamp_score (score : Py.pyfloat) : Py.pyfloat :=
  Py.max (Py.Finite 0) (Py.min (Py.Finite 1) score).

Definition float_value (x : Py.pyfloat) : Q :=
  match x with Py.Finite q => q | _ => 0 end.

Definition candidate_summary_of (candidate : Candidate) : option string :=
  match resume_parsed candidate with
  | Some rp => if has_key (summary rp) then item (summary rp) else Some ""
  | None => Some ""
  end.

Definition _calculate_culture_fit (env : Env) (job : Job) (candidate : Candidate) : Q :=
  let job_desc := description job in
  let candidate_summary := candidate_summary_of candidate in
  if negb (Py.truthy_str (Some job_desc)) || negb (Py.truthy_str candidate_summary)
  then 0.5
  else
    match candidate_summary with
    | Some candidate_summary =>
        match chat_completions_create env job_desc candidate_summary with
        | ChatRaises => 0.5
        | ChatContent None => 0.5
        | ChatContent (Some content) =>
            let score_text := Py.strip content in
            match float env score_text with
            | Some score => float_value (clamp_score score)
            | None => 0.5
            end
        end
    | None => 0.5
    end.

(** ** Recommendations *)

(** The entries [_generate_recommendations] can produce, one constructor per
    message of the source:
    - [DevelopSkills l]: "Consider developing these skills: " followed by
      [', '.join(l)];
    - [GainExperience g]: "Gain g more years of relevant experience", [g]
      printed with one decimal;
    - [ResearchCulture]: "Research company culture and values to better align
      your application";
    - [ExcellentSkillMatch]: "Excellent skill match! Your technical skills
      align well with the requirements";
    - [StrongExperienceMatch]: "Strong experience match for this role";
    - [GoodOverallMatch]: "Good overall match - consider applying for this
      position";
    - [ConsiderApplying]: "Consider applying for this position", the answer
      of the exception handler. *)
Inductive Recommendation : Type :=
| DevelopSkills (missing : list string)
| GainExperience (gap : Q)
| ResearchCulture
| ExcellentSkillMatch
| StrongExperienceMatch
| GoodOverallMatch
| ConsiderApplying.

(** [skill.lower() not in [cs.lower() for cs in candidate_skills]]. *)
Definition skill_is_missing (candidate_skills : list string) (skill : string) : bool :=
  negb (existsb (String.eqb (Py.lower skill)) (map Py.lower candidate_skills)).

(** The [try] block of [_generate_recommendations]; [None] when a statement
    of the block raises: iterating over a [null] skill list, or comparing a
    number with a [null] requirement. *)
Definition recommendations_try (job : Job) (candidate : Candidate) (scores : Scores)
  : option (list Recommendation) :=
  let recommendations := [] in
  (* Skill recommendations *)
  match
    (if Py.ltb (skill_match scores) 0.7 then
       match (match parsed_requirements job with
              | Some p => get (required_skills p) []
              | None => Some []
              end) with
       | Some job_skills =>
           let candidate_skills := Py.or_list (skills candidate) [] in
           let missing_skills := filter (skill_is_missing candidate_skills) job_skills in
           match missing_skills with
           | _ :: _ => Some (recommendations ++ [DevelopSkills (firstn 3 missing_skills)])
           | [] => Some recommendations
           end
       | None => None
       end
     else Some recommendations)
  with
  | None => None
  | Some recommendations =>
  (* Experience recommendations *)
  match
    (if Py.ltb (experience_match scores) 0.8 then
       match (match parsed_requirements job with
              | Some p => get (experience_required p) 0
              | None => Some 0
              end) with
       | Some required_exp =>
           let candidate_exp := Py.or_num (experience_years candidate) 0 in
           if Py.ltb candidate_exp required_exp
           then Some (recommendations ++ [GainExperience (required_exp - candidate_exp)])
           else Some recommendations
       | None => None
       end
     else Some recommendations)
  with
  | None => None
  | Some recommendations =>
  (* Culture fit recommendations *)
  let recommendations :=
    if Py.ltb (culture_fit scores) 0.6
    then recommendations ++ [ResearchCulture] else recommendations in
  (* Positive feedback *)
  let recommendations :=
    if Py.gtb (skill_match scores) 0.9
    then recommendations ++ [ExcellentSkillMatch] else recommendations in
  let recommendations :=
    if Py.gtb (experience_match scores) 0.9
    then recommendations ++ [StrongExperienceMatch] else recommendations in
  (* Default recommendation if no specific ones *)
  let recommendations :=
    match recommendations with
    | [] => recommendations ++ [GoodOverallMatch]
    | _ => recommendations
    end in
  Some (firstn 5 recommendations)
  end end.

Definition _generate_recommendations (job : Job) (candidate : Candidate) (scores : Scores)
  : list Recommendation :=
  match recommendations_try job candidate scores with
  | Some recommendations => recommendations
  | None => [ConsiderApplying]
  end.

(** ** Breakdown *)

Record JobAnalysis : Type := {
  ja_title : string;
  ja_required_skills : option (list string);
  ja_experience_required : option Q
}.

Record CandidateAnalysis : Type := {
  ca_name : string;
  ca_skills : list string;
  ca_experience_years : option Q;
  ca_current_role : option string;
  ca_current_company : option string
}.

Record Breakdown : Type := {
  job_analysis : JobAnalysis;
  candidate_analysis : CandidateAnalysis
}.

Definition _get_score_breakdown (job : Job) (candidate : Candidate) : Breakdown :=
  {| job_analysis :=
       {| ja_title := title job;
          ja_required_skills :=
            match parsed_requirements job with
            | Some p => get (required_skills p) []
            | None => Some []
            end;
          ja_experience_required :=
            match parsed_requirements job with
            | Some p => get (experience_required p) 0
            | None => Some 0
            end |};
     candidate_analysis :=
       {| ca_name := (first_name candidate ++ " " ++ last_name candidate)%string;
          ca_skills := Py.or_list (skills candidate) [];
          ca_experience_years := experience_years candidate;
          ca_current_role := current_title candidate;
          ca_current_company := current_company candidate |} |}.

(** ** The entry point *)

Record FitScoreResponse : Type := {
  r_application_id : string;
  r_job_id : string;
  r_candidate_id : string;
  r_overall_score : Q;
  r_skill_match : Q;
  r_experience_match : Q;
  r_education_match : Q;
  r_location_match : Q;
  r_culture_fit : Q;
  r_breakdown : Breakdown;
  r_recommendations : list Recommendation;
  r_generated_at : Z
}.

Inductive exn : Type :=
| ValueError (message : string).

(** A call either returns or raises. *)
Inductive result (A : Type) : Type :=
| Ok (a : A)
| Raise (e : exn).
Arguments Ok {A} a.
Arguments Raise {A} e.

Definition weights : Scores :=
  {| skill_match := 0.35;
     experience_match := 0.25;
     education_match := 0.15;
     location_match := 0.10;
     culture_fit := 0.15 |}.

Definition overall_score_of (s : Scores) : Q :=
  skill_match s * skill_match weights +
  experience_match s * experience_match weights +
  education_match s * education_match weights +
  location_match s * location_match weights +
  culture_fit s * culture_fit weights.

(** The five individual scores, in the order the entry point computes them. *)
Definition individual_scores (env : Env) (job : Job) (candidate : Candidate) : Scores :=
  {| skill_match := _calculate_skill_match job candidate;
     experience_match := _calculate_experience_match job candidate;
     education_match := _calculate_education_match job candidate;
     location_match := _calculate_location_match job candidate;
     culture_fit := _calculate_culture_fit env job candidate |}.

Definition is_job (job_id organization_id : string) (j : Job) : bool :=
  (job_id_of j =? job_id)%string && (job_organization_id j =? organization_id)%string.

Definition is_candidate (candidate_id organization_id : string) (c : Candidate) : bool :=
  (candidate_id_of c =? candidate_id)%string
  && (candidate_organization_id c =? organization_id)%string.

Definition is_application (job_id candidate_id : string) (a : Application) : bool :=
  (application_job_id a =? job_id)%string && (application_candidate_id a =? candidate_id)%string.

(** Assigns [fit_score] and [fit_score_details] of a row. *)
Definition set_fit_score (score : Q) (details : FitScoreDetails) (a : Application)
  : Application :=
  {| application_id_of := application_id_of a;
     application_job_id := application_job_id a;
     application_candidate_id := application_candidate_id a;
     application_organization_id := application_organization_id a;
     fit_score := Some score;
     fit_score_details := Some details |}.

(** The row the query's [.first()] returned is the one that is written. *)
Fixpoint update_first (p : Application -> bool) (f : Application -> Application)
  (l : list Application) : list Application :=
  match l with
  | [] => []
  | a :: t => if p a then f a :: t else a :: update_first p f t
  end.

Definition calculate_fit_score (env : Env) (db : Db)
  (job_id candidate_id organization_id : string) : result (FitScoreResponse * Db) :=
  match find (is_job job_id organization_id) (jobs db),
        find (is_candidate candidate_id organization_id) (candidates db) with
  | Some job, Some candidate =>
      let scores := individual_scores env job candidate in
      let overall_score := overall_score_of scores in
      let recommendations := _generate_recommendations job candidate scores in
      let details :=
        {| details_scores := scores;
           details_weights := weights;
           calculated_at := utcnow_details env |} in
      let (application_id, applications') :=
        match find (is_application job_id candidate_id) (applications db) with
        | Some application =>
            (application_id_of application,
             update_first (is_application job_id candidate_id)
               (set_fit_score overall_score details) (applications db))
        | None =>
            (uuid4 env,
             applications db ++
               [ {| application_id_of := uuid4 env;
                    application_job_id := job_id;
                    application_candidate_id := candidate_id;
                    application_organization_id := organization_id;
                    fit_score := Some overall_score;
                    fit_score_details := Some details |} ])
        end in
      Ok ({| r_application_id := application_id;
             r_job_id := job_id;
             r_candidate_id := candidate_id;
             r_overall_score := overall_score;
             r_skill_match := skill_match scores;
             r_experience_match := experience_match scores;
             r_education_match := education_match scores;
             r_location_match := location_match scores;
             r_culture_fit := culture_fit scores;
             r_breakdown := _get_score_breakdown job candidate;
             r_recommendations := recommendations;
             r_generated_at := utcnow_response env |},
          {| jobs := jobs db;
             candidates := candidates db;
             applications := applications' |})
  | _, _ => Raise (ValueError "Job or candidate not found")
  end.

(** ** Ranking *)

Record RankedCandidate : Type := {
  rc_candidate : Candidate;
  rc_application : Application;
  rc_fit_score : Q;
  rc_fit_score_details : option FitScoreDetails
}.

(** The body of the loop over the rows: the dictionary built for a row
    whose candidate exists, nothing for a row whose candidate is gone. *)
Definition ranked_entry (db : Db) (app : Application) : option RankedCandidate :=
  match find (fun c => (candidate_id_of c =? application_candidate_id app)%string)
             (candidates db) with
  | Some candidate =>
      Some {| rc_candidate := candidate;
              rc_application := app;
              rc_fit_score := Py.or_num (fit_score app) 0;
              rc_fit_score_details := fit_score_details app |}
  | None => None
  end.

(** [get_top_candidates]; [order_by_fit_score_desc] is the database's
    [ORDER BY applications.fit_score DESC]. *)
Definition get_top_candidates
  (order_by_fit_score_desc : list Application -> list Application)
  (db : Db) (job_id organization_id : string) (limit : nat) : list RankedCandidate :=
  let applications :=
    firstn limit
      (order_by_fit_score_desc
         (filter (fun a => (application_job_id a =? job_id)%string
                           && (application_organization_id a =? organization_id)%string)
                 (applications db))) in
  fold_left
    (fun results app =>
       match ranked_entry db app with
       | Some entry => results ++ [entry]
       | None => results
       end)
    applications [].

(** What SQL promises of [ORDER BY fit_score DESC]: the rows are the same
    and the keys do not increase; PostgreSQL, the configured database, puts
    [NULL] keys first in descending order.  The order of rows with equal
    keys is not specified. *)
Definition fit_score_desc (a b : Application) : Prop :=
  match fit_score a, fit_score b with
  | None, _ => True
  | Some _, None => False
  | Some x, Some y => y <= x
  end.

Definition sql_order_by_desc (order_by : list Application -> list Application) : Prop :=
  forall rows, Permutation rows (order_by rows) /\ StronglySorted fit_score_desc (order_by rows).

(** One such ordering: insertion, rows with equal keys staying in storage
    order. *)
Definition fit_score_desc_b (a b : Application) : bool :=
  match fit_score a, fit_score b with
  | None, _ => true
  | Some _, None => false
  | Some x, Some y => Qle_bool y x
  end.

Fixpoint insert_desc (a : Application) (l : list Application) : list Application :=
  match l with
  | [] => [a]
  | b :: t => if fit_score_desc_b a b then a :: l else b :: insert_desc a t
  end.

Definition storage_order_by_desc (rows : list Application) : list Application :=
  fold_right insert_desc [] rows.

(** ** The route of [main.py] that calls the scorer *)

(** What a route answers: the body, with status 200, or an [HTTPException]. *)
Inductive http (A : Type) : Type :=
| Http200 (body : A)
| HTTPException (status_code : nat) (detail : string).
Arguments Http200 {A} body.
Arguments HTTPException {A} status_code detail.

(** [str(e)]. *)
Definition exn_str (e : exn) : string :=
  match e with ValueError message => message end.

(** How the database reads a text that is compared with a UUID column:
    [Some id], the identifier the text denotes (the rows of the model hold
    identifiers), or [None] for a text that is no UUID, in which case the
    query raises; [uuid_error text] is [str] of that exception. *)
Record UuidSyntax : Type := {
  parse_uuid : string -> option string;
  uuid_error : string -> string
}.

(** The response names the job and the candidate by the texts of the
    request. *)
Definition with_request_ids (job_id candidate_id : string) (r : FitScoreResponse)
  : FitScoreResponse :=
  {| r_application_id := r_application_id r;
     r_job_id := job_id;
     r_candidate_id := candidate_id;
     r_overall_score := r_overall_score r;
     r_skill_match := r_skill_match r;
     r_experience_match := r_experience_match r;
     r_education_match := r_education_match r;
     r_location_match := r_location_match r;
     r_culture_fit := r_culture_fit r;
     r_breakdown := r_breakdown r;
     r_recommendations := r_recommendations r;
     r_generated_at := r_generated_at r |}.

(** [POST /api/fit-score]: the service is called with the two texts of the
    request and the organization of the authenticated user, and whatever it
    raises becomes a 400 whose detail is the text of the exception.  The
    query for the job raises on a job id that is no UUID, the query for the
    candidate on such a candidate id; nothing has been added to the session
    when the service raises. *)
Definition api_calculate_fit_score (pg : UuidSyntax) (env : Env) (db : Db)
  (job_id candidate_id current_user_organization_id : string)
  : http FitScoreResponse * Db :=
  match parse_uuid pg job_id with
  | None => (HTTPException 400 (uuid_error pg job_id), db)
  | Some job_uuid =>
      match parse_uuid pg candidate_id with
      | None => (HTTPException 400 (uuid_error pg candidate_id), db)
      | Some candidate_uuid =>
          match calculate_fit_score env db job_uuid candidate_uuid
                  current_user_organization_id with
          | Ok (score, db') => (Http200 (with_request_ids job_id candidate_id score), db')
          | Raise e => (HTTPException 400 (exn_str e), db)
          end
      end
  end.

(** ** The simple score of [utils.py] *)

(** [set(skill.lower() for skill in skills)], as the list of its elements. *)
Definition lower_set (skills : list string) : list string :=
  nodup string_dec (map Py.lower skills).

(** [x in s] for a set of strings. *)
Definition set_mem (x : string) (s : list string) : bool :=
  existsb (String.eqb x) s.

Definition calculate_fit_score_simple (job_skills candidate_skills : list string) : Q :=
  match job_skills, candidate_skills with
  | [], _ | _, [] => 0.0
  | _, _ =>
      let job_set := lower_set job_skills in
      let candidate_set := lower_set candidate_skills in
      let matches := List.length (filter (fun s => set_mem s candidate_set) job_set) in
      inject_Z (Z.of_nat matches) / inject_Z (Z.of_nat (List.length job_set))
  end.

(** ** Sample records *)

Module Sample.

Definition job (skills : jfield (list string)) (years : jfield Q)
  (edu : jfield string) (location : option string) : Job :=
  {| job_id_of := "job-1";
     job_organization_id := "org-1";
     title := "Backend engineer";
     description := "";
     requirements := None;
     parsed_requirements :=
       Some {| required_skills := skills;
               experience_required := years;
               education_required := edu |};
     job_location := location |}.

Definition candidate (id : string) (skills : list string) (years : option Q)
  (edu : list string) (location : option string) : Candidate :=
  {| candidate_id_of := id;
     candidate_organization_id := "org-1";
     first_name := "Ada";
     last_name := "Park";
     resume_parsed := Some {| education := JVal edu; summary := JNull |};
     skills := Some skills;
     experience_years := years;
     current_company := None;
     current_title := None;
     candidate_location := location |}.

(** A client whose call fails, as on a timeout. *)
Definition env (now : Z) : Env :=
  {| chat_completions_create := fun _ _ => ChatRaises;
     float := fun _ => None;
     uuid4 := "app-1";
     utcnow_details := now;
     utcnow_response := (now + 1)%Z |}.

(** The end-to-end scenario of the specification. *)
Definition scenario_job : Job :=
  job (JVal ["Python"; "AWS"]) (JVal 5) (JVal "Bachelor") (Some "Remote").

Definition scenario_candidate : Candidate :=
  candidate "cand-1" ["python"; "Docker"] (Some 3) ["Master's degree"] (Some "Remote").

Definition scenario_db : Db :=
  {| jobs := [scenario_job];
     candidates := [scenario_candidate];
     applications := [] |}.

End Sample.

(** * Notions used in the properties

    The predicates the statements are written with, the rules as the
    specification words them, and the records the statements are evaluated
    on. *)

(** ** Intervals *)

Definition in_unit_interval (x : Q) : Prop := 0 <= x <= 1.

(** ** Sums *)

(** Sum of a list of numbers. *)
Definition Qsum (l : list Q) : Q := fold_right Qplus 0 l.

(** ** Education levels *)

(** The level the loop leaves for a text, starting from [d]: the value of
    the last entry of the table whose name occurs in the lowered text. *)
Definition last_level (table : list (string * Z)) (d : Z) (text : string) : Z :=
  match find (fun entry => Py.contains (fst entry) (Py.lower text)) (rev table) with
  | Some entry => snd entry
  | None => d
  end.

(** ** Ranges of a set of scores *)

Definition scores_in_range (s : Scores) : Prop :=
  in_unit_interval (skill_match s) /\
  in_unit_interval (experience_match s) /\
  in_unit_interval (education_match s) /\
  in_unit_interval (location_match s) /\
  in_unit_interval (culture_fit s) /\
  in_unit_interval (overall_score_of s).

(** ** Records for C1 *)

(** A candidate whose record holds a negative number of years. *)
Definition negative_years_candidate : Candidate :=
  Sample.candidate "cand-2" ["python"; "Docker"] (Some (-20)) ["Master's degree"]
    (Some "Remote").

(** ** Occurrence of a string in another *)

(** [needle] occurs in [hay]. *)
Definition occurs_in (needle hay : string) : Prop :=
  exists before after, hay = (before ++ needle ++ after)%string.

(** ** Rules for C2 *)

(** The rule as the specification words it: for each required skill an
    equal candidate skill is looked for in the whole list before any
    substring match is considered. *)
Definition exact_first_credit (candidate_skills : list string) (required : string) : Q :=
  if existsb (fun c => (Py.lower required =? Py.lower c)%string) candidate_skills then 1
  else if existsb (fun c => Py.contains (Py.lower required) (Py.lower c)
                            || Py.contains (Py.lower c) (Py.lower required))
                  candidate_skills then 0.8
  else 0.

Definition exact_first_skill_score (required candidate_skills : list string) : Q :=
  match required, candidate_skills with
  | [], _ | _, [] => 0.0
  | _, _ =>
      Qmin 1 (Qsum (map (exact_first_credit candidate_skills) required)
              / inject_Z (Z.of_nat (List.length required)))
  end.

(** The rule of the source: the first candidate skill, in list order, that
    is equal to the required skill or matches it as a substring decides. *)
Definition first_match_credit (candidate_skills : list string) (required : string) : Q :=
  match find (fun c => Py.contains (Py.lower required) (Py.lower c)
                       || Py.contains (Py.lower c) (Py.lower required))
             candidate_skills with
  | Some c => if (Py.lower required =? Py.lower c)%string then 1 else 0.8
  | None => 0
  end.

(** ** Rules for C3 *)

(** The rule as the specification words it: only an absent value is
    neutral, a value of zero takes part in the comparison. *)
Definition experience_score_when_zero_counts (required candidate : option Q) : Q :=
  match required, candidate with
  | Some r, Some c => if Py.geb c r then 1.0 else c / r
  | _, _ => 0.5
  end.

(** A missing value of either side: [None], and for the source also [0]. *)
Definition no_data (x : option Q) : Prop :=
  match x with
  | Some q => q == 0
  | None => True
  end.

(** ** Rules for C4 *)

(** The vocabulary in the order the specification lists it, read with the
    first matching entry deciding. *)
Definition vocabulary_as_listed : list (string * Z) :=
  [ ("high school", 1%Z); ("associate", 2%Z); ("bachelor", 3%Z);
    ("mba", 4%Z); ("master", 4%Z); ("phd", 5%Z) ].

Definition first_level (text : string) : Z :=
  match find (fun entry => Py.contains (fst entry) (Py.lower text)) vocabulary_as_listed with
  | Some entry => snd entry
  | None => 0%Z
  end.

Definition education_score_first_match (required_edu candidate_edu : string) : Q :=
  let required_level := first_level required_edu in
  let candidate_level := first_level candidate_edu in
  if (candidate_level >=? required_level)%Z then 1.0
  else if (required_level >? 0)%Z
       then inject_Z candidate_level / inject_Z required_level
       else 0.

Definition no_text (x : option string) : Prop := x = None \/ x = Some "".

(** ** Normal form for C5 *)

(** A location after case-folding and trimming. *)
Definition normalized (location : string) : string := Py.strip (Py.lower location).

(** ** Records for C6 *)

(** A job and a candidate with the two texts the culture-fit call needs. *)
Definition described_job : Job :=
  {| job_id_of := "job-2";
     job_organization_id := "org-1";
     title := "Data engineer";
     description := "We value pairing and written communication.";
     requirements := Some ["SQL"];
     parsed_requirements := None;
     job_location := Some "Berlin" |}.

Definition summarised_candidate : Candidate :=
  {| candidate_id_of := "cand-9";
     candidate_organization_id := "org-1";
     first_name := "Lin";
     last_name := "Moreau";
     resume_parsed :=
       Some {| education := KeyAbsent; summary := JVal "Enjoys working in small teams." |};
     skills := Some ["sql"];
     experience_years := Some 4;
     current_company := None;
     current_title := None;
     candidate_location := Some "Berlin" |}.

Definition described_db : Db :=
  {| jobs := [described_job];
     candidates := [summarised_candidate];
     applications := [] |}.

(** ** Rules and records for C7 *)

(** The six rules as the specification words them, each giving at most one
    entry; a requirement that is absent or [null] counts as 0 years and as
    no required skill. *)
Definition required_skill_list (job : Job) : list string :=
  match parsed_requirements job with
  | Some p => match required_skills p with JVal l => l | _ => [] end
  | None => []
  end.

Definition required_years (job : Job) : Q :=
  match parsed_requirements job with
  | Some p => match experience_required p with JVal y => y | _ => 0 end
  | None => 0
  end.

Definition rule_skill_gap (job : Job) (candidate : Candidate) (scores : Scores)
  : list Recommendation :=
  let missing :=
    filter (skill_is_missing (Py.or_list (skills candidate) [])) (required_skill_list job) in
  if Py.ltb (skill_match scores) 0.7 && negb (Nat.eqb (List.length missing) 0)
  then [DevelopSkills (firstn 3 missing)] else [].

Definition rule_experience_gap (job : Job) (candidate : Candidate) (scores : Scores)
  : list Recommendation :=
  let candidate_years := Py.or_num (experience_years candidate) 0 in
  if Py.ltb (experience_match scores) 0.8 && Py.ltb candidate_years (required_years job)
  then [GainExperience (required_years job - candidate_years)] else [].

Definition rule_culture (scores : Scores) : list Recommendation :=
  if Py.ltb (culture_fit scores) 0.6 then [ResearchCulture] else [].

Definition rule_skill_praise (scores : Scores) : list Recommendation :=
  if Py.gtb (skill_match scores) 0.9 then [ExcellentSkillMatch] else [].

Definition rule_experience_praise (scores : Scores) : list Recommendation :=
  if Py.gtb (experience_match scores) 0.9 then [StrongExperienceMatch] else [].

Definition six_rules (job : Job) (candidate : Candidate) (scores : Scores)
  : list Recommendation :=
  let specific :=
    rule_skill_gap job candidate scores ++ rule_experience_gap job candidate scores
    ++ rule_culture scores ++ rule_skill_praise scores ++ rule_experience_praise scores in
  firstn 5 (match specific with [] => [GoodOverallMatch] | _ => specific end).

(** No key of the parsed requirements that the rules read holds [null]. *)
Definition requirements_not_null (job : Job) : Prop :=
  match parsed_requirements job with
  | Some p => required_skills p <> JNull /\ experience_required p <> JNull
  | None => True
  end.

(** A job as the fallback parser of job descriptions leaves it when the
    text names no number of years: the key is there, the value is [null]. *)
Definition job_without_years : Job :=
  Sample.job (JVal ["Python"]) JNull JNull None.

Definition java_candidate : Candidate :=
  Sample.candidate "cand-10" ["Java"] (Some 3) [] None.

(** ** Notions for C8 *)

Definition with_generated_at (t : Z) (r : FitScoreResponse) : FitScoreResponse :=
  {| r_application_id := r_application_id r;
     r_job_id := r_job_id r;
     r_candidate_id := r_candidate_id r;
     r_overall_score := r_overall_score r;
     r_skill_match := r_skill_match r;
     r_experience_match := r_experience_match r;
     r_education_match := r_education_match r;
     r_location_match := r_location_match r;
     r_culture_fit := r_culture_fit r;
     r_breakdown := r_breakdown r;
     r_recommendations := r_recommendations r;
     r_generated_at := t |}.

(** The fields of a response that do not come from the clock or from the
    UUID generator. *)
Definition scored_fields (r : FitScoreResponse) :=
  (r_job_id r, r_candidate_id r, r_overall_score r,
   (r_skill_match r, r_experience_match r, r_education_match r,
    r_location_match r, r_culture_fit r),
   r_breakdown r, r_recommendations r).

(** Two environments whose culture-fit judgment is the same. *)
Definition same_judgment (env1 env2 : Env) : Prop :=
  (forall job_desc candidate_summary,
      chat_completions_create env1 job_desc candidate_summary
      = chat_completions_create env2 job_desc candidate_summary) /\
  (forall text, float env1 text = float env2 text).

(** ** Notions and records for C9 *)

Definition response_scores (r : FitScoreResponse) : Scores :=
  {| skill_match := r_skill_match r;
     experience_match := r_experience_match r;
     education_match := r_education_match r;
     location_match := r_location_match r;
     culture_fit := r_culture_fit r |}.

(** The dictionary a call stores next to the score. *)
Definition stored_details (env : Env) (r : FitScoreResponse) : FitScoreDetails :=
  {| details_scores := response_scores r;
     details_weights := weights;
     calculated_at := utcnow_details env |}.

(** A database in which the pair of the scenario has been scored before. *)
Definition rescored_db : Db :=
  {| jobs := [Sample.scenario_job];
     candidates := [Sample.scenario_candidate];
     applications :=
       [ {| application_id_of := "app-0";
            application_job_id := "job-1";
            application_candidate_id := "cand-1";
            application_organization_id := "org-1";
            fit_score := Some 0.1;
            fit_score_details := None |} ] |}.

(** ** Orders and records for C10 *)

(** The order the specification asks of two entries of the ranking, the
    first standing before the second: a greater score, or the same score
    and a candidate identifier that is not greater. *)
Definition ranked_before (x y : RankedCandidate) : Prop :=
  rc_fit_score y < rc_fit_score x \/
  (rc_fit_score x == rc_fit_score y /\
   String.leb (candidate_id_of (rc_candidate x)) (candidate_id_of (rc_candidate y)) = true).

(** The order the source asks of the database: scores do not increase. *)
Definition score_not_below (x y : RankedCandidate) : Prop :=
  rc_fit_score y <= rc_fit_score x.

(** The rows of a job in an organization, in storage order: what the
    query of [get_top_candidates] selects before ordering. *)
Definition job_rows (db : Db) (job_id organization_id : string) : list Application :=
  filter (fun a => (application_job_id a =? job_id)%string
                   && (application_organization_id a =? organization_id)%string)
         (applications db).

(** The candidate of a row is still in the table of candidates. *)
Definition candidate_exists (db : Db) (app : Application) : bool :=
  match find (fun c => (candidate_id_of c =? application_candidate_id app)%string)
             (candidates db) with
  | Some _ => true
  | None => false
  end.

(** Two candidates with the same score, the one with the greater
    identifier stored first. *)
Definition tied_db : Db :=
  {| jobs := [Sample.scenario_job];
     candidates :=
       [ Sample.candidate "cand-a" ["python"] (Some 5) [] None;
         Sample.candidate "cand-b" ["python"] (Some 5) [] None ];
     applications :=
       [ {| application_id_of := "app-b";
            application_job_id := "job-1";
            application_candidate_id := "cand-b";
            application_organization_id := "org-1";
            fit_score := Some 0.8;
            fit_score_details := None |};
         {| application_id_of := "app-a";
            application_job_id := "job-1";
            application_candidate_id := "cand-a";
            application_organization_id := "org-1";
            fit_score := Some 0.8;
            fit_score_details := None |} ] |}.

(** ** Notions for the further properties *)

(** A required skill and a candidate skill match: after lower-casing, one
    occurs in the other (equal strings included). *)
Definition skills_overlap (required candidate_skill : string) : Prop :=
  occurs_in (Py.lower required) (Py.lower candidate_skill)
  \/ occurs_in (Py.lower candidate_skill) (Py.lower required).

(** A string made of white space only (the empty string included). *)
Definition blank (w : string) : Prop :=
  forall c, In c (list_ascii_of_string w) -> Py.is_space c = true.

(** A reading of UUID texts for the examples: every text is the identifier
    it spells, except one that is no UUID. *)
Definition sample_uuid_syntax : UuidSyntax :=
  {| parse_uuid := fun text => if (text =? "not-a-uuid")%string then None else Some text;
     uuid_error := fun text => "invalid input syntax for type uuid" |}.

(** The number of rows of a (job, candidate) pair, and the invariant of the
    unique index [idx_job_candidate]. *)
Definition pair_count (db : Db) (job_id candidate_id : string) : nat :=
  List.length (filter (is_application job_id candidate_id) (applications db)).

Definition unique_pairs (db : Db) : Prop :=
  forall job_id candidate_id, (pair_count db job_id candidate_id <= 1)%nat.

(** A candidate skill list holds a skill, up to case. *)
Definition has_skill (candidate_skills : list string) (skill : string) : Prop :=
  exists c, In c candidate_skills /\ Py.lower c = Py.lower skill.

(** * Properties *)

(** ** Comparisons and arithmetic *)

Lemma ltb_true (x y : Q) : Py.ltb x y = true <-> x < y.
Proof.
  unfold Py.ltb. rewrite Qlt_alt.
  destruct (x ?= y); split; intro H; congruence.
Qed.

Lemma ltb_false (x y : Q) : Py.ltb x y = false <-> y <= x.
Proof.
  split; intro H.
  - apply Qnot_lt_le. intro L. apply ltb_true in L. congruence.
  - destruct (Py.ltb x y) eqn:E; trivial.
    apply ltb_true in E. exfalso. apply (Qlt_not_le _ _ E H).
Qed.

Lemma geb_true (x y : Q) : Py.geb x y = true <-> y <= x.
Proof. unfold Py.geb. apply Qle_bool_iff. Qed.

Lemma geb_false (x y : Q) : Py.geb x y = false <-> x < y.
Proof.
  split; intro H.
  - apply Qnot_le_lt. intro L. apply geb_true in L. congruence.
  - destruct (Py.geb x y) eqn:E; trivial.
    apply geb_true in E. exfalso. apply (Qlt_not_le _ _ H E).
Qed.

Lemma ratio_in_unit_interval (c r : Q) :
  0 <= c -> c < r -> in_unit_interval (c / r).
Proof.
  intros Hc Hr.
  assert (0 < r) by (eapply Qle_lt_trans; eauto).
  split.
  - apply Qle_shift_div_l; trivial. lra.
  - apply Qle_shift_div_r; trivial. lra.
Qed.

(** ** Skill match: the running count *)

Lemma skill_inner_loop_range (j : string) (cs : list string) :
  in_unit_interval (skill_inner_loop j cs).
Proof.
  unfold in_unit_interval.
  induction cs as [|c cs IH]; simpl.
  - lra.
  - destruct (j =? Py.lower c)%string; [lra|].
    destruct (Py.contains j (Py.lower c) || Py.contains (Py.lower c) j); [|exact IH].
    split; [discriminate|]. unfold Qle; simpl; lia.
Qed.

Lemma matched_skills_sum (cs js : list string) (acc : Q) :
  fold_left (fun m j => m + skill_inner_loop (Py.lower j) cs) js acc
  == acc + Qsum (map (fun j => skill_inner_loop (Py.lower j) cs) js).
Proof.
  revert acc. induction js as [|j js IH]; intro acc; simpl.
  - lra.
  - rewrite IH. lra.
Qed.

Lemma Qsum_range (l : list Q) :
  Forall in_unit_interval l ->
  0 <= Qsum l <= inject_Z (Z.of_nat (List.length l)).
Proof.
  induction 1 as [|x l [Hx0 Hx1] _ IH].
  - split; discriminate.
  - change (Qsum (x :: l)) with (x + Qsum l).
    change (List.length (x :: l)) with (S (List.length l)).
    rewrite Nat2Z.inj_succ. unfold Z.succ. rewrite inject_Z_plus.
    change (inject_Z 1) with 1. lra.
Qed.

Lemma skill_credits_range (cs js : list string) :
  Forall in_unit_interval (map (fun j => skill_inner_loop (Py.lower j) cs) js).
Proof.
  apply Forall_forall. intros x Hx. apply in_map_iff in Hx.
  destruct Hx as [j [<- _]]. apply skill_inner_loop_range.
Qed.

Lemma inject_nat_pos (n : nat) : (0 < n)%nat -> 0 < inject_Z (Z.of_nat n).
Proof.
  intro H. change 0 with (inject_Z 0). rewrite <- Zlt_Qlt. lia.
Qed.

Lemma skill_ratio_range (cs js : list string) :
  js <> [] ->
  in_unit_interval
    (fold_left (fun m j => m + skill_inner_loop (Py.lower j) cs) js 0
     / inject_Z (Z.of_nat (List.length js))).
Proof.
  intro Hne.
  assert (Hn : 0 < inject_Z (Z.of_nat (List.length js))).
  { apply inject_nat_pos. destruct js; [congruence | simpl; lia]. }
  pose proof (Qsum_range _ (skill_credits_range cs js)) as [H0 H1].
  rewrite length_map in H1.
  unfold in_unit_interval. rewrite matched_skills_sum.
  split.
  - apply Qle_shift_div_l; trivial. lra.
  - apply Qle_shift_div_r; trivial. lra.
Qed.

Lemma skill_match_range (job : Job) (candidate : Candidate) :
  in_unit_interval (_calculate_skill_match job candidate).
Proof.
  unfold _calculate_skill_match.
  destruct (job_skills_of job) as [[|j js]|]; simpl; try (split; discriminate).
  destruct (skills candidate) as [[|c cs]|]; simpl; try (split; discriminate).
  set (ratio := _ / _).
  assert (R : in_unit_interval ratio).
  { apply (skill_ratio_range (c :: cs) (j :: js)). discriminate. }
  destruct (Py.ltb 1.0 ratio); [split; discriminate | exact R].
Qed.

(** ** Experience, education, location and culture: ranges *)

Lemma experience_match_range (job : Job) (candidate : Candidate) :
  (forall y, experience_years candidate = Some y -> 0 <= y) ->
  in_unit_interval (_calculate_experience_match job candidate).
Proof.
  intro Hy. unfold _calculate_experience_match.
  destruct (required_exp_of job) as [r|]; simpl; [|split; discriminate].
  destruct (experience_years candidate) as [c|]; simpl;
    [|destruct (negb (Qeq_bool r 0)); split; discriminate].
  destruct (negb (Qeq_bool r 0) ), (negb (Qeq_bool c 0)); simpl;
    try (split; discriminate).
  destruct (Py.geb c r) eqn:G; [split; discriminate|].
  apply geb_false in G. apply ratio_in_unit_interval; auto.
Qed.

Lemma find_snoc {A} (p : A -> bool) (l : list A) (x : A) :
  find p (l ++ [x]) =
  match find p l with
  | Some y => Some y
  | None => if p x then Some x else None
  end.
Proof.
  induction l as [|a l IH]; simpl; trivial.
  destruct (p a); trivial.
Qed.

Lemma last_level_cons (e : string * Z) (table : list (string * Z)) (d : Z) (text : string) :
  last_level (e :: table) d text =
  last_level table (if Py.contains (fst e) (Py.lower text) then snd e else d) text.
Proof.
  unfold last_level. simpl. rewrite find_snoc.
  destruct (find _ (rev table)); trivial.
  destruct (Py.contains (fst e) (Py.lower text)); trivial.
Qed.

Lemma education_fold_levels (required_edu candidate_edu : string)
  (table : list (string * Z)) (r0 c0 : Z) :
  fold_left (education_step required_edu candidate_edu) table (r0, c0)
  = (last_level table r0 required_edu, last_level table c0 candidate_edu).
Proof.
  revert r0 c0. induction table as [|[name value] table IH]; intros r0 c0.
  - reflexivity.
  - simpl fold_left. rewrite IH, !last_level_cons. reflexivity.
Qed.

Lemma last_level_nonneg (text : string) : (0 <= last_level education_levels 0 text)%Z.
Proof.
  unfold last_level.
  destruct (find _ (rev education_levels)) as [e|] eqn:F; [|lia].
  apply find_some in F. destruct F as [F _]. simpl in F.
  repeat (destruct F as [<-|F]; [simpl; lia|]). contradiction.
Qed.

Lemma education_match_range (job : Job) (candidate : Candidate) :
  in_unit_interval (_calculate_education_match job candidate).
Proof.
  unfold _calculate_education_match.
  destruct (required_edu_of job) as [[|a re]|]; try (simpl; split; discriminate).
  destruct (candidate_edu_of candidate) as [[|b ce]|]; try (simpl; split; discriminate).
  cbn [Py.truthy_str negb orb].
  unfold education_loop. rewrite education_fold_levels.
  set (r := last_level _ _ (String a re)). set (c := last_level _ _ (String b ce)).
  destruct (c >=? r)%Z eqn:G; [split; discriminate|].
  destruct (r >? 0)%Z; [|split; discriminate].
  apply ratio_in_unit_interval.
  - change 0 with (inject_Z 0). rewrite <- Zle_Qle. apply last_level_nonneg.
  - rewrite <- Zlt_Qlt. lia.
Qed.

Lemma location_match_range (job : Job) (candidate : Candidate) :
  in_unit_interval (_calculate_location_match job candidate).
Proof.
  unfold _calculate_location_match.
  destruct (job_location job) as [[|a jl]|]; simpl; try (split; discriminate).
  destruct (candidate_location candidate) as [[|b cl]|]; simpl; try (split; discriminate).
  repeat match goal with
         | |- context [if ?b then _ else _] => destruct b
         end; split; discriminate.
Qed.

(** [max(0, min(1, score))] is a finite number of the unit interval, also
    for the infinities and for [nan]. *)
Lemma clamp_score_range (score : Py.pyfloat) :
  in_unit_interval (float_value (clamp_score score)).
Proof.
  unfold clamp_score, Py.min, Py.max.
  destruct score as [q| | |]; simpl; try (split; discriminate).
  destruct (Py.ltb q 1) eqn:L1; simpl.
  - destruct (Py.ltb 0 q) eqn:L0; simpl; [|split; discriminate].
    apply ltb_true in L1, L0. split; lra.
  - split; discriminate.
Qed.

Lemma culture_fit_range (env : Env) (job : Job) (candidate : Candidate) :
  in_unit_interval (_calculate_culture_fit env job candidate).
Proof.
  unfold _calculate_culture_fit.
  destruct (negb _ || negb _); [split; discriminate|].
  destruct (candidate_summary_of candidate) as [s|]; [|split; discriminate].
  destruct (chat_completions_create env _ s) as [|[content|]]; try (split; discriminate).
  destruct (float env _); [apply clamp_score_range | split; discriminate].
Qed.

(** ** The weighted sum *)

Lemma weights_sum : overall_score_of
                      {| skill_match := 1; experience_match := 1; education_match := 1;
                         location_match := 1; culture_fit := 1 |} == 1.
Proof. reflexivity. Qed.

Lemma overall_score_range (s : Scores) :
  in_unit_interval (skill_match s) ->
  in_unit_interval (experience_match s) ->
  in_unit_interval (education_match s) ->
  in_unit_interval (location_match s) ->
  in_unit_interval (culture_fit s) ->
  in_unit_interval (overall_score_of s).
Proof.
  unfold in_unit_interval, overall_score_of, weights. simpl.
  intros [? ?] [? ?] [? ?] [? ?] [? ?]. split; lra.
Qed.

(** ** C1: ranges of the sub-scores and of the overall score *)

(** C1, as stated, fails: nothing in the scorer treats a negative number of
    years as absent. With 5 years required and -20 years on the candidate's
    record the experience sub-score is -4 and the overall score is -0.5. *)
Lemma negative_years_leave_unit_interval :
  let s := individual_scores (Sample.env 0) Sample.scenario_job negative_years_candidate in
  experience_match s == -4 /\
  overall_score_of s == -0.5 /\
  ~ scores_in_range s.
Proof.
  split; [reflexivity|]. split; [reflexivity|].
  intros (_ & [H _] & _). vm_compute in H. apply H. reflexivity.
Qed.

(** C1 (amended): for every job, every candidate whose years of experience
    are absent or not negative, and every behaviour of the culture-fit
    client, each of the five sub-scores lies in [0,1] and so does their
    weighted sum, the overall score. *)
Theorem scores_in_unit_interval (env : Env) (job : Job) (candidate : Candidate) :
  (forall y, experience_years candidate = Some y -> 0 <= y) ->
  scores_in_range (individual_scores env job candidate).
Proof.
  intro Hy.
  pose proof (skill_match_range job candidate) as Hs.
  pose proof (experience_match_range job candidate Hy) as He.
  pose proof (education_match_range job candidate) as Hd.
  pose proof (location_match_range job candidate) as Hl.
  pose proof (culture_fit_range env job candidate) as Hc.
  unfold scores_in_range. repeat (split; [assumption|]).
  apply overall_score_range; assumption.
Qed.

Lemma scores_in_unit_interval_witness :
  scores_in_range
    (individual_scores (Sample.env 0) Sample.scenario_job Sample.scenario_candidate).
Proof.
  apply scores_in_unit_interval.
  simpl. intros y E. injection E as <-. discriminate.
Defined.

(** ** Substrings *)

Lemma prefix_iff (p s : string) :
  prefix p s = true <-> exists rest, s = (p ++ rest)%string.
Proof.
  revert s. induction p as [|a p IH]; intro s.
  - split; [intros _; exists s; reflexivity | intros _; destruct s; reflexivity].
  - destruct s as [|b s]; simpl.
    + split; [discriminate | intros [rest H]; discriminate].
    + destruct (ascii_dec a b) as [->|N].
      * rewrite IH. split; intros [rest H]; exists rest.
        -- now rewrite H.
        -- now injection H.
      * split; [discriminate|]. intros [rest H]. injection H as E _. congruence.
Qed.

Lemma contains_iff (needle hay : string) :
  Py.contains needle hay = true <-> occurs_in needle hay.
Proof.
  unfold occurs_in. induction hay as [|c hay IH].
  - change (Py.contains needle "") with (prefix needle "" || false).
    rewrite orb_false_r, prefix_iff. split.
    + intros [rest H]. exists "", rest. exact H.
    + intros [[|b before] [after H]]; [exists after; exact H | discriminate].
  - change (Py.contains needle (String c hay))
      with (prefix needle (String c hay) || Py.contains needle hay).
    rewrite orb_true_iff, prefix_iff, IH. split.
    + intros [[rest H] | [before [after H]]].
      * exists "", rest. exact H.
      * exists (String c before), after. simpl. now rewrite H.
    + intros [[|b before] [after H]].
      * left. exists after. exact H.
      * right. exists before, after. simpl in H. now injection H.
Qed.

Lemma contains_refl (s : string) : Py.contains s s = true.
Proof.
  apply contains_iff. exists "", "". simpl.
  induction s as [|c s IH]; simpl; [reflexivity | now rewrite <- IH].
Qed.

(** ** C2: the skill sub-score *)

Lemma skill_inner_loop_first_match (cs : list string) (j : string) :
  skill_inner_loop (Py.lower j) cs = first_match_credit cs j.
Proof.
  unfold first_match_credit.
  induction cs as [|c cs IH]; simpl; trivial.
  destruct (Py.lower j =? Py.lower c)%string eqn:E.
  - apply String.eqb_eq in E. rewrite E, contains_refl. simpl.
    now rewrite String.eqb_refl.
  - destruct (Py.contains (Py.lower j) (Py.lower c)
              || Py.contains (Py.lower c) (Py.lower j)).
    + now rewrite E.
    + exact IH.
Qed.

(** C2, as stated, fails: required ["Java"] against candidate skills
    ["JavaScript"; "Java"] scores 0.8 in the source, the substring match on
    the first candidate skill ending the search, where the exact-first rule
    gives 1.0. *)
Lemma substring_match_hides_later_exact_match :
  _calculate_skill_match
    (Sample.job (JVal ["Java"]) JNull JNull None)
    (Sample.candidate "cand-3" ["JavaScript"; "Java"] None [] None) == 0.8 /\
  exact_first_skill_score ["Java"] ["JavaScript"; "Java"] == 1 /\
  ~ _calculate_skill_match
      (Sample.job (JVal ["Java"]) JNull JNull None)
      (Sample.candidate "cand-3" ["JavaScript"; "Java"] None [] None)
    == exact_first_skill_score ["Java"] ["JavaScript"; "Java"].
Proof.
  split; [reflexivity|]. split; [reflexivity|]. discriminate.
Qed.

(** C2 (amended): if the required-skill list or the candidate-skill list is
    empty the skill sub-score is 0.0; otherwise it is the matched count
    divided by the number of required skills, clamped to at most 1.0, where
    each required skill contributes once, by the first candidate skill in
    list order that equals it or contains it or is contained in it,
    case-insensitively: 1.0 if that candidate skill equals it, 0.8 if not,
    and 0 if there is no such candidate skill. *)
Theorem skill_match_first_match (job : Job) (candidate : Candidate) :
  let required := Py.or_list (job_skills_of job) [] in
  let candidate_skills := Py.or_list (skills candidate) [] in
  (required = [] \/ candidate_skills = [] ->
   _calculate_skill_match job candidate = 0.0) /\
  (required <> [] -> candidate_skills <> [] ->
   _calculate_skill_match job candidate
   == Qmin 1 (Qsum (map (first_match_credit candidate_skills) required)
              / inject_Z (Z.of_nat (List.length required)))).
Proof.
  unfold _calculate_skill_match.
  destruct (job_skills_of job) as [[|j js]|],
           (skills candidate) as [[|c cs]|]; simpl Py.or_list;
    cbn [Py.truthy_list negb orb];
    (split; [intros [?|?]; try reflexivity; discriminate
            | intros ? ?; try congruence]).
  set (cands := c :: cs). set (req := j :: js).
  pose proof (skill_ratio_range cands req ltac:(discriminate)) as [_ R1].
  assert (E : fold_left (fun m j0 => m + skill_inner_loop (Py.lower j0) cands) req 0
              / inject_Z (Z.of_nat (List.length req))
              == Qsum (map (first_match_credit cands) req)
                 / inject_Z (Z.of_nat (List.length req))).
  { rewrite matched_skills_sum.
    rewrite (map_ext _ (first_match_credit cands)
               (skill_inner_loop_first_match cands)).
    unfold Qdiv. lra. }
  change (0 <? List.length req)%nat with true. cbv iota.
  rewrite <- E.
  destruct (Py.ltb 1.0 _) eqn:L.
  - apply ltb_true in L. exfalso. apply (Qlt_not_le _ _ L).
    apply Qle_trans with 1; [exact R1 | discriminate].
  - symmetry. apply Q.min_r. exact R1.
Qed.

Lemma skill_match_first_match_witness :
  _calculate_skill_match Sample.scenario_job Sample.scenario_candidate
  == Qmin 1 (Qsum (map (first_match_credit ["python"; "Docker"]) ["Python"; "AWS"])
             / inject_Z (Z.of_nat 2)).
Proof.
  apply (proj2 (skill_match_first_match Sample.scenario_job Sample.scenario_candidate));
    simpl; discriminate.
Defined.

(** ** C3: the experience sub-score *)

Lemma truthy_num_false (x : option Q) : Py.truthy_num x = false <-> no_data x.
Proof.
  destruct x as [q|]; simpl; [|tauto].
  rewrite negb_false_iff. apply Qeq_bool_iff.
Qed.

(** C3, as stated, fails: the guard of the source tests the truth value of
    both numbers, so a candidate with 0 years against a requirement of 5
    scores 0.5, not 0.0, and a requirement of 0 against 3 years scores 0.5,
    not 1.0. *)
Lemma zero_years_score_neutral :
  _calculate_experience_match
    (Sample.job JNull (JVal 5) JNull None)
    (Sample.candidate "cand-4" [] (Some 0) [] None) == 0.5 /\
  experience_score_when_zero_counts (Some 5) (Some 0) == 0 /\
  _calculate_experience_match
    (Sample.job JNull (JVal 0) JNull None)
    (Sample.candidate "cand-5" [] (Some 3) [] None) == 0.5 /\
  experience_score_when_zero_counts (Some 0) (Some 3) == 1.
Proof. repeat split. Qed.

(** C3 (amended): the experience sub-score is 0.5 when the job's
    minimum-years requirement or the candidate's years of experience is
    absent or zero; when both are present and not zero it is 1.0 if the
    candidate's years are greater than or equal to the requirement, and
    candidate-years divided by required-years otherwise. *)
Theorem experience_match_cases (job : Job) (candidate : Candidate) :
  (no_data (required_exp_of job) \/ no_data (experience_years candidate) ->
   _calculate_experience_match job candidate = 0.5) /\
  (forall r c,
      required_exp_of job = Some r -> experience_years candidate = Some c ->
      ~ r == 0 -> ~ c == 0 ->
      (r <= c -> _calculate_experience_match job candidate = 1.0) /\
      (c < r -> _calculate_experience_match job candidate = c / r)).
Proof.
  unfold _calculate_experience_match. split.
  - intros [H|H]; apply truthy_num_false in H; rewrite H; simpl; trivial.
    now rewrite orb_true_r.
  - intros r c Hr Hc Nr Nc. rewrite Hr, Hc.
    assert (Tr : Py.truthy_num (Some r) = true).
    { destruct (Py.truthy_num (Some r)) eqn:E; trivial.
      apply truthy_num_false in E. contradiction. }
    assert (Tc : Py.truthy_num (Some c) = true).
    { destruct (Py.truthy_num (Some c)) eqn:E; trivial.
      apply truthy_num_false in E. contradiction. }
    rewrite Tr, Tc. cbn [negb orb]. split; intro H.
    + apply geb_true in H. now rewrite H.
    + apply geb_false in H. now rewrite H.
Qed.

Lemma experience_match_cases_witness :
  _calculate_experience_match Sample.scenario_job Sample.scenario_candidate = 3 / 5.
Proof.
  apply (proj2 (experience_match_cases Sample.scenario_job Sample.scenario_candidate)
           5 3); try reflexivity; discriminate.
Defined.

(** ** C4: the education sub-score *)

Lemma truthy_str_false (x : option string) : Py.truthy_str x = false <-> no_text x.
Proof.
  unfold no_text.
  destruct x as [[|c s]|]; simpl; split; intro H; auto; try discriminate;
    destruct H; discriminate.
Qed.

(** C4, as stated, fails: the loop of the source has no exit, so the last
    matching entry decides. A requirement "Bachelor or Master" resolves to
    level 4, and a candidate with a "Bachelor of Science" scores 3/4, where
    the first matching entry would give level 3 and the score 1.0. *)
Lemma later_entry_overrides_earlier :
  _calculate_education_match
    (Sample.job JNull JNull (JVal "Bachelor or Master") None)
    (Sample.candidate "cand-6" [] None ["Bachelor of Science"] None) == 3 # 4 /\
  education_score_first_match "Bachelor or Master" "Bachelor of Science" == 1 /\
  ~ _calculate_education_match
      (Sample.job JNull JNull (JVal "Bachelor or Master") None)
      (Sample.candidate "cand-6" [] None ["Bachelor of Science"] None)
    == education_score_first_match "Bachelor or Master" "Bachelor of Science".
Proof.
  split; [reflexivity|]. split; [reflexivity|]. discriminate.
Qed.

(** C4 (amended): if the required education text or the candidate's first
    education entry is missing or empty the sub-score is 0.5. Otherwise each
    text is mapped to a level by substring containment, after lower-casing,
    against the table high school:1, associate:2, bachelor:3, master:4,
    phd:5, mba:4, the last matching entry in that order deciding and
    unmatched text mapping to 0; the sub-score is 1.0 if the candidate level
    is greater than or equal to the required level, in particular whenever
    the required level is 0, and candidate level divided by required level
    otherwise. *)
Theorem education_match_last_match (job : Job) (candidate : Candidate) :
  (no_text (required_edu_of job) \/ no_text (candidate_edu_of candidate) ->
   _calculate_education_match job candidate = 0.5) /\
  (forall required_edu candidate_edu,
      required_edu_of job = Some required_edu ->
      candidate_edu_of candidate = Some candidate_edu ->
      required_edu <> "" -> candidate_edu <> "" ->
      let required_level := last_level education_levels 0 required_edu in
      let candidate_level := last_level education_levels 0 candidate_edu in
      ((required_level <= candidate_level)%Z ->
       _calculate_education_match job candidate = 1.0) /\
      ((candidate_level < required_level)%Z ->
       _calculate_education_match job candidate
       = inject_Z candidate_level / inject_Z required_level) /\
      (required_level = 0%Z -> _calculate_education_match job candidate = 1.0)).
Proof.
  unfold _calculate_education_match. split.
  - intros [H|H]; apply truthy_str_false in H; rewrite H; cbn [negb orb]; trivial.
    now rewrite orb_true_r.
  - intros re ce Hr Hc Nr Nc. rewrite Hr, Hc.
    destruct re as [|a re]; [congruence|]. destruct ce as [|b ce]; [congruence|].
    cbn [Py.truthy_str negb orb].
    unfold education_loop. rewrite education_fold_levels.
    set (rl := last_level education_levels 0 (String a re)).
    set (cl := last_level education_levels 0 (String b ce)).
    assert (G : (rl <= cl)%Z -> (if (cl >=? rl)%Z then 1.0
                 else if (rl >? 0)%Z then inject_Z cl / inject_Z rl else 0) = 1.0).
    { intro H. destruct (cl >=? rl)%Z eqn:E; trivial. lia. }
    split; [exact G|]. split.
    + intro H. destruct (cl >=? rl)%Z eqn:E; [lia|].
      destruct (rl >? 0)%Z eqn:E0; trivial.
      pose proof (last_level_nonneg (String b ce)). fold cl in H0. lia.
    + intro H. apply G. rewrite H. apply last_level_nonneg.
Qed.

Lemma education_match_last_match_witness :
  _calculate_education_match
    (Sample.job JNull JNull (JVal "PhD") None)
    (Sample.candidate "cand-7" [] None ["Bachelor of Science"] None)
  = inject_Z 3 / inject_Z 5.
Proof.
  apply (proj2 (education_match_last_match
                  (Sample.job JNull JNull (JVal "PhD") None)
                  (Sample.candidate "cand-7" [] None ["Bachelor of Science"] None))
           "PhD" "Bachelor of Science"); try reflexivity; discriminate.
Defined.

(** ** C5: the location sub-score *)

Example normalized_city : normalized "  New York, NY " = "new york, ny".
Proof. reflexivity. Qed.

Lemma contains_false (needle hay : string) :
  Py.contains needle hay = false <-> ~ occurs_in needle hay.
Proof.
  rewrite <- contains_iff. destruct (Py.contains needle hay); split; intro H;
    trivial; try discriminate. now contradiction H.
Qed.

(** C5: with both location strings present (not [None], not empty), the
    normalized strings decide in this order: equal gives 1.0; else one
    occurring in the other gives 0.8; else "remote" occurring in either gives
    0.9; else 0.3. Job "Remote" against candidate "Remote" gives 1.0. A
    missing string on either side gives 0.5. *)
Theorem location_match_cases (job : Job) (candidate : Candidate) :
  (no_text (job_location job) \/ no_text (candidate_location candidate) ->
   _calculate_location_match job candidate = 0.5) /\
  (forall jl cl,
      job_location job = Some jl -> candidate_location candidate = Some cl ->
      jl <> "" -> cl <> "" ->
      (normalized jl = normalized cl ->
       _calculate_location_match job candidate = 1.0) /\
      (normalized jl <> normalized cl ->
       occurs_in (normalized jl) (normalized cl)
       \/ occurs_in (normalized cl) (normalized jl) ->
       _calculate_location_match job candidate = 0.8) /\
      (normalized jl <> normalized cl ->
       ~ occurs_in (normalized jl) (normalized cl) ->
       ~ occurs_in (normalized cl) (normalized jl) ->
       occurs_in "remote" (normalized jl) \/ occurs_in "remote" (normalized cl) ->
       _calculate_location_match job candidate = 0.9) /\
      (normalized jl <> normalized cl ->
       ~ occurs_in (normalized jl) (normalized cl) ->
       ~ occurs_in (normalized cl) (normalized jl) ->
       ~ occurs_in "remote" (normalized jl) ->
       ~ occurs_in "remote" (normalized cl) ->
       _calculate_location_match job candidate = 0.3)) /\
  (job_location job = Some "Remote" -> candidate_location candidate = Some "Remote" ->
   _calculate_location_match job candidate = 1.0).
Proof.
  unfold _calculate_location_match. split; [|split].
  - intros [H|H]; apply truthy_str_false in H; rewrite H; cbn [negb orb]; trivial.
    now rewrite orb_true_r.
  - intros jl cl Hj Hc Nj Nc. rewrite Hj, Hc.
    destruct jl as [|a jl]; [congruence|]. destruct cl as [|b cl]; [congruence|].
    cbn [Py.truthy_str negb orb].
    fold (normalized (String a jl)). fold (normalized (String b cl)).
    set (x := normalized (String a jl)). set (y := normalized (String b cl)).
    split; [|split; [|split]].
    + intros ->. now rewrite String.eqb_refl.
    + intros N O. apply String.eqb_neq in N. rewrite N.
      destruct O as [O|O]; apply contains_iff in O; rewrite O; trivial.
      now rewrite orb_true_r.
    + intros N O1 O2 R. apply String.eqb_neq in N. rewrite N.
      apply contains_false in O1, O2. rewrite O1, O2. cbn [orb].
      destruct R as [R|R]; apply contains_iff in R; rewrite R; trivial.
      now rewrite orb_true_r.
    + intros N O1 O2 R1 R2. apply String.eqb_neq in N. rewrite N.
      apply contains_false in O1, O2, R1, R2. now rewrite O1, O2, R1, R2.
  - intros -> ->. reflexivity.
Qed.

Lemma location_match_cases_witness :
  _calculate_location_match
    (Sample.job JNull JNull JNull (Some "Remote"))
    (Sample.candidate "cand-8" [] None [] (Some "San Francisco")) = 0.9.
Proof.
  apply (proj1 (proj2 (location_match_cases
                  (Sample.job JNull JNull JNull (Some "Remote"))
                  (Sample.candidate "cand-8" [] None [] (Some "San Francisco"))))
           "Remote" "San Francisco");
    try reflexivity; try discriminate;
    try (apply contains_false; reflexivity).
  left. apply contains_iff. reflexivity.
Defined.

(** ** C6: the culture sub-score and the failure of the external call *)

Lemma clamp_finite (q : Q) :
  float_value (clamp_score (Py.Finite q)) == Qmax 0 (Qmin 1 q).
Proof.
  unfold clamp_score, Py.min, Py.max. simpl.
  destruct (Py.ltb q 1) eqn:L1; simpl.
  - apply ltb_true in L1.
    destruct (Py.ltb 0 q) eqn:L0; simpl.
    + apply ltb_true in L0.
      rewrite (Q.min_r 1 q) by lra. rewrite Q.max_r by lra. reflexivity.
    + apply ltb_false in L0.
      rewrite (Q.min_r 1 q) by lra. rewrite Q.max_l by lra. reflexivity.
  - apply ltb_false in L1.
    rewrite (Q.min_l 1 q) by lra. rewrite Q.max_r by lra. reflexivity.
Qed.

(** The entry point returns as soon as the two records are found. *)
Lemma calculate_fit_score_returns (env : Env) (db : Db)
  (job_id candidate_id organization_id : string) (job : Job) (candidate : Candidate) :
  find (is_job job_id organization_id) (jobs db) = Some job ->
  find (is_candidate candidate_id organization_id) (candidates db) = Some candidate ->
  exists r db',
    calculate_fit_score env db job_id candidate_id organization_id = Ok (r, db') /\
    r_job_id r = job_id /\
    r_candidate_id r = candidate_id /\
    r_skill_match r = _calculate_skill_match job candidate /\
    r_experience_match r = _calculate_experience_match job candidate /\
    r_education_match r = _calculate_education_match job candidate /\
    r_location_match r = _calculate_location_match job candidate /\
    r_culture_fit r = _calculate_culture_fit env job candidate /\
    r_overall_score r = overall_score_of (individual_scores env job candidate) /\
    r_breakdown r = _get_score_breakdown job candidate /\
    r_recommendations r
    = _generate_recommendations job candidate (individual_scores env job candidate) /\
    r_generated_at r = utcnow_response env.
Proof.
  intros Hj Hc. unfold calculate_fit_score. rewrite Hj, Hc.
  destruct (find (is_application job_id candidate_id) (applications db));
    eexists; eexists; (split; [reflexivity|]); simpl; repeat split.
Qed.

Lemma find_update_first (p : Application -> bool) (f : Application -> Application)
  (l : list Application) (a : Application) :
  (forall x, p (f x) = p x) ->
  find p l = Some a -> find p (update_first p f l) = Some (f a).
Proof.
  intro Hp. induction l as [|x l IH]; simpl; [discriminate|].
  destruct (p x) eqn:E.
  - intros [= <-]. simpl. now rewrite Hp, E.
  - intro H. simpl. rewrite E. auto.
Qed.

Lemma is_application_refl (job_id candidate_id organization_id id : string)
  (score : option Q) (details : option FitScoreDetails) :
  is_application job_id candidate_id
    {| application_id_of := id;
       application_job_id := job_id;
       application_candidate_id := candidate_id;
       application_organization_id := organization_id;
       fit_score := score;
       fit_score_details := details |} = true.
Proof. unfold is_application. simpl. now rewrite !String.eqb_refl. Qed.

(** The row a returning call leaves for the pair. *)
Lemma scored_row (env : Env) (db db' : Db)
  (job_id candidate_id organization_id : string) (r : FitScoreResponse) :
  calculate_fit_score env db job_id candidate_id organization_id = Ok (r, db') ->
  exists row,
    find (is_application job_id candidate_id) (applications db') = Some row /\
    application_id_of row = r_application_id r /\
    fit_score row = Some (r_overall_score r) /\
    fit_score_details row = Some (stored_details env r) /\
    application_organization_id row =
    match find (is_application job_id candidate_id) (applications db) with
    | Some old => application_organization_id old
    | None => organization_id
    end.
Proof.
  unfold calculate_fit_score.
  destruct (find (is_job _ _) (jobs db)) as [job|]; [|discriminate].
  destruct (find (is_candidate _ _) (candidates db)) as [candidate|]; [|discriminate].
  destruct (find (is_application _ _) (applications db)) as [old|] eqn:F;
    intros [= <- <-]; cbn [applications].
  - eexists. split; [apply find_update_first; [reflexivity | exact F]|].
    repeat split.
  - eexists. split; [rewrite find_snoc, F, is_application_refl; reflexivity|].
    repeat split.
Qed.

(** C6: with a job description and a candidate summary present, a reply of
    the external judgment that parses as a number is clamped into [0,1] and
    is the culture sub-score; when the call raises (an error, a timeout),
    returns no content, or returns text that does not parse, the culture
    sub-score is 0.5; in every case the entry point returns a complete
    result carrying that sub-score. *)
Theorem culture_fit_degrades (env : Env) (db : Db)
  (job_id candidate_id organization_id : string)
  (job : Job) (candidate : Candidate) (text : string) :
  find (is_job job_id organization_id) (jobs db) = Some job ->
  find (is_candidate candidate_id organization_id) (candidates db) = Some candidate ->
  description job <> "" ->
  candidate_summary_of candidate = Some text -> text <> "" ->
  (forall content score,
      chat_completions_create env (description job) text = ChatContent (Some content) ->
      float env (Py.strip content) = Some score ->
      _calculate_culture_fit env job candidate = float_value (clamp_score score) /\
      in_unit_interval (_calculate_culture_fit env job candidate) /\
      (forall q, score = Py.Finite q ->
                 _calculate_culture_fit env job candidate == Qmax 0 (Qmin 1 q))) /\
  (chat_completions_create env (description job) text = ChatRaises \/
   chat_completions_create env (description job) text = ChatContent None \/
   (exists content,
       chat_completions_create env (description job) text = ChatContent (Some content) /\
       float env (Py.strip content) = None) ->
   _calculate_culture_fit env job candidate = 0.5) /\
  (exists r db',
      calculate_fit_score env db job_id candidate_id organization_id = Ok (r, db') /\
      r_job_id r = job_id /\
      r_candidate_id r = candidate_id /\
      r_skill_match r = _calculate_skill_match job candidate /\
      r_experience_match r = _calculate_experience_match job candidate /\
      r_education_match r = _calculate_education_match job candidate /\
      r_location_match r = _calculate_location_match job candidate /\
      r_culture_fit r = _calculate_culture_fit env job candidate /\
      r_overall_score r = overall_score_of (individual_scores env job candidate) /\
      r_breakdown r = _get_score_breakdown job candidate /\
      r_recommendations r
      = _generate_recommendations job candidate (individual_scores env job candidate) /\
      r_recommendations r <> [] /\
      r_generated_at r = utcnow_response env /\
      exists row,
        find (is_application job_id candidate_id) (applications db') = Some row /\
        application_id_of row = r_application_id r /\
        fit_score row = Some (r_overall_score r) /\
        fit_score_details row = Some (stored_details env r)).
Proof.
  intros Hj Hc Nd Hs Nt.
  assert (U : _calculate_culture_fit env job candidate
              = match chat_completions_create env (description job) text with
                | ChatRaises => 0.5
                | ChatContent None => 0.5
                | ChatContent (Some content) =>
                    match float env (Py.strip content) with
                    | Some score => float_value (clamp_score score)
                    | None => 0.5
                    end
                end).
  { unfold _calculate_culture_fit. rewrite Hs.
    destruct (description job) as [|a d]; [congruence|].
    destruct text as [|b t]; [congruence|]. reflexivity. }
  split; [|split].
  - intros content score Hchat Hfloat.
    assert (E : _calculate_culture_fit env job candidate = float_value (clamp_score score)).
    { rewrite U, Hchat, Hfloat. reflexivity. }
    split; [exact E|]. split.
    + apply culture_fit_range.
    + intros q ->. rewrite E. apply clamp_finite.
  - intros [H|[H|[content [H F]]]]; rewrite U, H; trivial. now rewrite F.
  - destruct (calculate_fit_score_returns env db job_id candidate_id organization_id
                job candidate Hj Hc)
      as (r & db' & Hr & Hjid & Hcid & Hsk & Hex & Hed & Hlo & Hcf & Ho & Hbd & Hrec & Hgen).
    destruct (scored_row _ _ _ _ _ _ _ Hr) as (row & Frow & Hid & Hfs & Hfd & _).
    exists r, db'. repeat (split; [assumption|]).
    split; [|split; [assumption | exists row; auto]].
    rewrite Hrec. unfold _generate_recommendations.
    destruct (recommendations_try job candidate _) as [l|] eqn:T; [|discriminate].
    unfold recommendations_try in T.
    repeat match type of T with
           | context [match ?x with _ => _ end] => destruct x; try discriminate
           end;
      injection T as <-; discriminate.
Qed.

Lemma culture_fit_degrades_witness :
  _calculate_culture_fit (Sample.env 0) described_job summarised_candidate = 0.5.
Proof.
  apply (proj1 (proj2 (culture_fit_degrades (Sample.env 0) described_db
                         "job-2" "cand-9" "org-1" described_job summarised_candidate
                         "Enjoys working in small teams."
                         eq_refl eq_refl ltac:(discriminate) eq_refl ltac:(discriminate)))).
  left. reflexivity.
Defined.

(** ** C7: the recommendation list *)

Lemma recommendations_length (job : Job) (candidate : Candidate) (scores : Scores) :
  (1 <= List.length (_generate_recommendations job candidate scores) <= 5)%nat.
Proof.
  unfold _generate_recommendations.
  destruct (recommendations_try job candidate scores) as [l|] eqn:T; [|simpl; lia].
  unfold recommendations_try in T.
  repeat match type of T with
         | context [match ?x with _ => _ end] => destruct x; try discriminate
         end;
    injection T as <-;
    repeat match goal with
           | |- context [match ?x with _ => _ end] => destruct x
           end;
    simpl; lia.
Qed.

(** Away from [null] requirements the source follows the six rules. *)
Lemma recommendations_follow_rules (job : Job) (candidate : Candidate) (scores : Scores) :
  requirements_not_null job ->
  _generate_recommendations job candidate scores = six_rules job candidate scores.
Proof.
  unfold requirements_not_null, _generate_recommendations, recommendations_try, six_rules,
    rule_skill_gap, rule_experience_gap, rule_culture, rule_skill_praise,
    rule_experience_praise, required_skill_list, required_years.
  intro H.
  destruct (parsed_requirements job) as [p|].
  - destruct H as [Hs He].
    destruct (required_skills p) as [| |l]; [|congruence|];
      (destruct (experience_required p) as [| |y]; [|congruence|]); simpl get;
      destruct (Py.ltb (skill_match scores) 0.7);
      destruct (Py.ltb (experience_match scores) 0.8);
      cbn [filter andb app List.length Nat.eqb negb];
      try destruct (filter _ l) as [|m ms];
      cbn [andb app List.length Nat.eqb negb];
      try destruct (Py.ltb (Py.or_num (experience_years candidate) 0) _);
      destruct (Py.ltb (culture_fit scores) 0.6);
      destruct (Py.gtb (skill_match scores) 0.9);
      destruct (Py.gtb (experience_match scores) 0.9);
      reflexivity.
  - destruct (Py.ltb (skill_match scores) 0.7);
      destruct (Py.ltb (experience_match scores) 0.8);
      cbn [filter andb app List.length Nat.eqb negb];
      try destruct (Py.ltb (Py.or_num (experience_years candidate) 0) _);
      destruct (Py.ltb (culture_fit scores) 0.6);
      destruct (Py.gtb (skill_match scores) 0.9);
      destruct (Py.gtb (experience_match scores) 0.9);
      reflexivity.
Qed.

(** C7 fails on the source at a [null] experience requirement: the skill
    gap is appended, then the comparison of the candidate's years with
    [None] raises, and the handler answers with the single entry "Consider
    applying for this position", which is none of the six rules; the rules
    give the skill gap followed by the culture advice. *)
Theorem null_requirement_discards_recommendations :
  let scores := individual_scores (Sample.env 0) job_without_years java_candidate in
  skill_match scores == 0 /\ experience_match scores == 0.5 /\ culture_fit scores == 0.5 /\
  recommendations_try job_without_years java_candidate scores = None /\
  _generate_recommendations job_without_years java_candidate scores = [ConsiderApplying] /\
  six_rules job_without_years java_candidate scores
  = [DevelopSkills ["Python"]; ResearchCulture].
Proof. repeat split. Qed.

(** ** C8: repeating a call *)

Lemma culture_fit_same_judgment (env1 env2 : Env) (job : Job) (candidate : Candidate) :
  same_judgment env1 env2 ->
  _calculate_culture_fit env1 job candidate = _calculate_culture_fit env2 job candidate.
Proof.
  intros [Hchat Hfloat]. unfold _calculate_culture_fit.
  destruct (negb _ || negb _); trivial.
  destruct (candidate_summary_of candidate) as [s|]; trivial.
  rewrite Hchat. destruct (chat_completions_create env2 _ s) as [|[content|]]; trivial.
  now rewrite Hfloat.
Qed.

Lemma individual_scores_same_judgment (env1 env2 : Env) (job : Job) (candidate : Candidate) :
  same_judgment env1 env2 ->
  individual_scores env1 job candidate = individual_scores env2 job candidate.
Proof.
  intro H. unfold individual_scores.
  now rewrite (culture_fit_same_judgment env1 env2 job candidate H).
Qed.

(** After a call the pair has a row, and the response names it. *)
Lemma scored_row_is_found (env : Env) (db db' : Db)
  (job_id candidate_id organization_id : string) (r : FitScoreResponse) :
  calculate_fit_score env db job_id candidate_id organization_id = Ok (r, db') ->
  jobs db' = jobs db /\ candidates db' = candidates db /\
  exists row, find (is_application job_id candidate_id) (applications db') = Some row /\
              application_id_of row = r_application_id r.
Proof.
  unfold calculate_fit_score.
  destruct (find (is_job _ _) (jobs db)) as [job|]; [|discriminate].
  destruct (find (is_candidate _ _) (candidates db)) as [candidate|]; [|discriminate].
  destruct (find (is_application _ _) (applications db)) as [row|] eqn:F;
    intros [= <- <-]; simpl; repeat split.
  - eexists. split.
    + apply find_update_first; [reflexivity | exact F].
    + reflexivity.
  - eexists. split.
    + rewrite find_snoc, F, is_application_refl. reflexivity.
    + reflexivity.
Qed.

(** C8, as stated, fails: every response carries the reading of the clock
    at which it was generated, so two calls with the same inputs and the same
    culture-fit judgment, made at different times, are not identical. *)
Lemma timestamps_break_identity :
  same_judgment (Sample.env 0) (Sample.env 100) /\
  match calculate_fit_score (Sample.env 0) Sample.scenario_db "job-1" "cand-1" "org-1" with
  | Ok (r1, db1) =>
      match calculate_fit_score (Sample.env 100) db1 "job-1" "cand-1" "org-1" with
      | Ok (r2, _) => r_generated_at r1 = 1%Z /\ r_generated_at r2 = 101%Z /\ r1 <> r2
      | Raise _ => False
      end
  | Raise _ => False
  end.
Proof.
  split; [split; reflexivity|].
  simpl. split; [reflexivity|]. split; [reflexivity|].
  intro H. apply (f_equal r_generated_at) in H. discriminate.
Qed.

(** C8 (amended): when a call of the entry point has returned, a second
    call with the same identifiers and the same culture-fit judgment returns
    a result equal to the first in every field except [generated_at], which
    is the new reading of the clock; and two calls from the same state of
    the database agree on the scores, the breakdown and the
    recommendations. *)
Theorem second_call_repeats_result (env1 env2 : Env) (db db1 : Db)
  (job_id candidate_id organization_id : string) (r1 : FitScoreResponse) :
  same_judgment env1 env2 ->
  calculate_fit_score env1 db job_id candidate_id organization_id = Ok (r1, db1) ->
  (exists db2,
      calculate_fit_score env2 db1 job_id candidate_id organization_id
      = Ok (with_generated_at (utcnow_response env2) r1, db2)) /\
  (exists r2 db2,
      calculate_fit_score env2 db job_id candidate_id organization_id = Ok (r2, db2) /\
      scored_fields r2 = scored_fields r1).
Proof.
  intros J H.
  destruct (scored_row_is_found _ _ _ _ _ _ _ H) as (Hjobs & Hcands & row & Hrow & Hid).
  revert H. unfold calculate_fit_score. rewrite Hjobs, Hcands, Hrow.
  destruct (find (is_job _ _) (jobs db)) as [job|]; [|discriminate].
  destruct (find (is_candidate _ _) (candidates db)) as [candidate|]; [|discriminate].
  rewrite (individual_scores_same_judgment env1 env2 job candidate J).
  intro H. split.
  - eexists. f_equal. f_equal.
    destruct (find (is_application _ _) (applications db));
      injection H as <- _; rewrite Hid; reflexivity.
  - destruct (find (is_application _ _) (applications db));
      injection H as <- _; eexists; eexists; (split; [reflexivity|]); reflexivity.
Qed.

Lemma second_call_repeats_result_witness :
  exists r1 db1 db2,
    calculate_fit_score (Sample.env 0) Sample.scenario_db "job-1" "cand-1" "org-1"
    = Ok (r1, db1) /\
    calculate_fit_score (Sample.env 100) db1 "job-1" "cand-1" "org-1"
    = Ok (with_generated_at 101 r1, db2).
Proof.
  destruct (proj1 (second_call_repeats_result (Sample.env 0) (Sample.env 100)
                     Sample.scenario_db _ "job-1" "cand-1" "org-1" _
                     (conj (fun _ _ => eq_refl) (fun _ => eq_refl)) eq_refl))
    as [db2 H2].
  eexists; eexists; exists db2. split; [reflexivity | exact H2].
Defined.

(** ** C9: what a call changes *)

Lemma update_first_split (p : Application -> bool) (f : Application -> Application)
  (l : list Application) (a : Application) :
  find p l = Some a ->
  exists before after,
    l = before ++ a :: after /\
    (forall x, In x before -> p x = false) /\
    update_first p f l = before ++ f a :: after.
Proof.
  induction l as [|x l IH]; simpl; [discriminate|].
  destruct (p x) eqn:E.
  - intros [= <-]. exists [], l. repeat split. intros y [].
  - intro H. destruct (IH H) as (before & after & -> & Hb & ->).
    exists (x :: before), after. repeat split.
    intros y [<-|Hy]; auto.
Qed.

(** C9, as stated, fails: the entry point writes to the database, and when
    the pair has been scored before it overwrites the stored score of the
    existing row in place; no new row is created. *)
Lemma rescoring_overwrites_stored_score :
  match calculate_fit_score (Sample.env 0) rescored_db "job-1" "cand-1" "org-1" with
  | Ok (r, db') =>
      map application_id_of (applications rescored_db) = ["app-0"] /\
      map fit_score (applications rescored_db) = [Some 0.1] /\
      map application_id_of (applications db') = ["app-0"] /\
      map fit_score (applications db') = [Some (r_overall_score r)] /\
      r_overall_score r == 0.65 /\
      db' <> rescored_db
  | Raise _ => False
  end.
Proof.
  simpl. repeat split.
  intro H. apply (f_equal (fun d => map fit_score (applications d))) in H.
  simpl in H. discriminate.
Qed.

(** C9 (amended): a call that returns leaves the rows of jobs and of
    candidates as they were and changes the table of applications in one
    place: if the pair has no row, one row is appended, with the identifier
    given by the UUID generator, the overall score and its details; if the
    pair has a row, the first such row is overwritten in place with the new
    overall score and details, and every other row stays as it was. *)
Theorem calculate_fit_score_frame (env : Env) (db db' : Db)
  (job_id candidate_id organization_id : string) (r : FitScoreResponse) :
  calculate_fit_score env db job_id candidate_id organization_id = Ok (r, db') ->
  jobs db' = jobs db /\
  candidates db' = candidates db /\
  match find (is_application job_id candidate_id) (applications db) with
  | None =>
      r_application_id r = uuid4 env /\
      applications db' =
      applications db ++
        [ {| application_id_of := uuid4 env;
             application_job_id := job_id;
             application_candidate_id := candidate_id;
             application_organization_id := organization_id;
             fit_score := Some (r_overall_score r);
             fit_score_details := Some (stored_details env r) |} ]
  | Some row =>
      r_application_id r = application_id_of row /\
      exists before after,
        applications db = before ++ row :: after /\
        (forall x, In x before -> is_application job_id candidate_id x = false) /\
        applications db' =
        before ++ set_fit_score (r_overall_score r) (stored_details env r) row :: after
  end.
Proof.
  unfold calculate_fit_score.
  destruct (find (is_job _ _) (jobs db)) as [job|]; [|discriminate].
  destruct (find (is_candidate _ _) (candidates db)) as [candidate|]; [|discriminate].
  destruct (find (is_application _ _) (applications db)) as [row|] eqn:F;
    intros [= <- <-]; simpl; repeat split.
  destruct (update_first_split _
              (set_fit_score
                 (overall_score_of (individual_scores env job candidate))
                 {| details_scores := individual_scores env job candidate;
                    details_weights := weights;
                    calculated_at := utcnow_details env |})
              _ _ F)
    as (before & after & E & Hb & U).
  exists before, after. repeat split; assumption.
Qed.

Lemma calculate_fit_score_frame_witness :
  exists r db',
    calculate_fit_score (Sample.env 0) rescored_db "job-1" "cand-1" "org-1" = Ok (r, db') /\
    jobs db' = jobs rescored_db /\ candidates db' = candidates rescored_db.
Proof.
  eexists; eexists. split; [reflexivity|].
  pose proof (calculate_fit_score_frame (Sample.env 0) rescored_db _
                "job-1" "cand-1" "org-1" _ eq_refl) as (Hj & Hc & _).
  split; [exact Hj | exact Hc].
Defined.

(** ** C10: the ranking query *)

Lemma fit_score_desc_b_true (a b : Application) :
  fit_score_desc_b a b = true -> fit_score_desc a b.
Proof.
  unfold fit_score_desc_b, fit_score_desc.
  destruct (fit_score a), (fit_score b); trivial; try discriminate.
  apply Qle_bool_imp_le.
Qed.

Lemma fit_score_desc_b_false (a b : Application) :
  fit_score_desc_b a b = false -> fit_score_desc b a.
Proof.
  unfold fit_score_desc_b, fit_score_desc.
  destruct (fit_score a) as [x|], (fit_score b) as [y|]; trivial; try discriminate.
  intro H. apply Qlt_le_weak. apply Qnot_le_lt. intro L.
  apply Qle_bool_iff in L. congruence.
Qed.

Lemma fit_score_desc_trans (a b c : Application) :
  fit_score_desc a b -> fit_score_desc b c -> fit_score_desc a c.
Proof.
  unfold fit_score_desc.
  destruct (fit_score a), (fit_score b), (fit_score c); trivial; try contradiction.
  intros H1 H2. eapply Qle_trans; eauto.
Qed.

Lemma insert_desc_perm (a : Application) (l : list Application) :
  Permutation (a :: l) (insert_desc a l).
Proof.
  induction l as [|b l IH]; simpl; [reflexivity|].
  destruct (fit_score_desc_b a b); [reflexivity|].
  rewrite perm_swap. now apply perm_skip.
Qed.

Lemma insert_desc_sorted (a : Application) (l : list Application) :
  Sorted fit_score_desc l -> Sorted fit_score_desc (insert_desc a l).
Proof.
  induction 1 as [|b l Hs IH Hd]; simpl.
  - repeat constructor.
  - destruct (fit_score_desc_b a b) eqn:E.
    + constructor; [now constructor|]. constructor. now apply fit_score_desc_b_true.
    + constructor; [exact IH|].
      apply fit_score_desc_b_false in E.
      destruct Hd as [|c l Hbc]; simpl.
      * now constructor.
      * destruct (fit_score_desc_b a c); now constructor.
Qed.

(** The insertion order is one of the orders SQL allows. *)
Lemma storage_order_is_sql_order : sql_order_by_desc storage_order_by_desc.
Proof.
  intro rows. unfold storage_order_by_desc. split.
  - induction rows as [|a rows IH]; simpl; [reflexivity|].
    rewrite <- insert_desc_perm. now apply perm_skip.
  - apply Sorted_StronglySorted.
    + intros a b c. apply fit_score_desc_trans.
    + induction rows as [|a rows IH]; simpl; [constructor|].
      now apply insert_desc_sorted.
Qed.

Lemma results_loop (db : Db) (l : list Application) (acc : list RankedCandidate) :
  fold_left
    (fun results app =>
       match ranked_entry db app with
       | Some entry => results ++ [entry]
       | None => results
       end) l acc
  = acc ++ flat_map (fun app => match ranked_entry db app with
                                | Some entry => [entry]
                                | None => []
                                end) l.
Proof.
  revert acc. induction l as [|a l IH]; intro acc; simpl.
  - now rewrite app_nil_r.
  - rewrite IH. destruct (ranked_entry db a); simpl; trivial.
    now rewrite <- app_assoc.
Qed.

Lemma in_firstn {A} (n : nat) (l : list A) (x : A) : In x (firstn n l) -> In x l.
Proof.
  revert l. induction n as [|n IH]; intros [|a l]; simpl; try contradiction.
  intros [->|H]; [now left | right; now apply IH].
Qed.

Lemma StronglySorted_firstn {A} (R : A -> A -> Prop) (n : nat) (l : list A) :
  StronglySorted R l -> StronglySorted R (firstn n l).
Proof.
  intro H. revert n. induction H as [|a l Hs IH Hf]; intros [|n]; simpl;
    try constructor.
  - apply IH.
  - apply Forall_forall. intros x Hx. apply in_firstn in Hx.
    revert x Hx. now apply Forall_forall.
Qed.

Lemma StronglySorted_entries {A B} (R : A -> A -> Prop) (R' : B -> B -> Prop)
  (g : A -> option B) (l : list A) :
  (forall a b x y, In a l -> In b l -> R a b -> g a = Some x -> g b = Some y -> R' x y) ->
  StronglySorted R l ->
  StronglySorted R'
    (flat_map (fun a => match g a with Some x => [x] | None => [] end) l).
Proof.
  intros HR H. induction H as [|a l Hs IH Hf]; simpl; [constructor|].
  assert (IH' : StronglySorted R'
                  (flat_map (fun a => match g a with Some x => [x] | None => [] end) l)).
  { apply IH. intros; eapply HR; eauto; now right. }
  destruct (g a) as [x|] eqn:Ga; simpl; [|exact IH'].
  constructor; [exact IH'|].
  apply Forall_forall. intros y Hy. apply in_flat_map in Hy.
  destruct Hy as (b & Hb & Hy).
  destruct (g b) as [y'|] eqn:Gb; [|contradiction].
  destruct Hy as [<-|[]].
  eapply (HR a b); eauto; [now left | now right |].
  rewrite Forall_forall in Hf. now apply Hf.
Qed.

Lemma or_num_some (q : Q) : Py.or_num (Some q) 0 == q.
Proof.
  unfold Py.or_num, Py.truthy_num.
  destruct (Qeq_bool q 0) eqn:E; simpl; [|reflexivity].
  apply Qeq_bool_iff in E. now rewrite E.
Qed.

Lemma entries_length {A B} (g : A -> option B) (l : list A) :
  (List.length (flat_map (fun a => match g a with Some x => [x] | None => [] end) l)
   <= List.length l)%nat.
Proof.
  induction l as [|a l IH]; simpl; [lia|].
  destruct (g a); simpl; lia.
Qed.

Lemma ranked_entry_some (db : Db) (app : Application) (e : RankedCandidate) :
  ranked_entry db app = Some e ->
  rc_application e = app /\
  rc_fit_score e = Py.or_num (fit_score app) 0 /\
  In (rc_candidate e) (candidates db) /\
  candidate_id_of (rc_candidate e) = application_candidate_id app.
Proof.
  unfold ranked_entry.
  destruct (find _ (candidates db)) as [c|] eqn:F; [|discriminate].
  intros [= <-]. simpl. apply find_some in F. destruct F as [Hin Heq].
  apply String.eqb_eq in Heq. auto.
Qed.

Lemma entries_applications (db : Db) (l : list Application) :
  map rc_application
    (flat_map (fun app => match ranked_entry db app with
                          | Some entry => [entry]
                          | None => []
                          end) l)
  = filter (candidate_exists db) l.
Proof.
  induction l as [|a l IH]; simpl; trivial.
  unfold candidate_exists at 1. unfold ranked_entry at 1.
  destruct (find _ (candidates db)); simpl; now rewrite IH.
Qed.

Lemma filter_all_true {A} (p : A -> bool) (l : list A) :
  (forall x, In x l -> p x = true) -> filter p l = l.
Proof.
  induction l as [|a l IH]; simpl; trivial.
  intro H. rewrite (H a (or_introl eq_refl)). f_equal. apply IH. auto.
Qed.

(** C10, as stated, fails: the query orders by the score alone. With two
    candidates of equal score whose rows the database returns in storage
    order, an order SQL allows, "cand-b" is ranked before "cand-a". *)
Lemma equal_scores_keep_storage_order :
  sql_order_by_desc storage_order_by_desc /\
  map (fun e => candidate_id_of (rc_candidate e))
      (get_top_candidates storage_order_by_desc tied_db "job-1" "org-1" 10)
  = ["cand-b"; "cand-a"] /\
  map rc_fit_score (get_top_candidates storage_order_by_desc tied_db "job-1" "org-1" 10)
  = [0.8; 0.8] /\
  ~ StronglySorted ranked_before
      (get_top_candidates storage_order_by_desc tied_db "job-1" "org-1" 10).
Proof.
  split; [apply storage_order_is_sql_order|].
  split; [reflexivity|]. split; [reflexivity|].
  intro H. vm_compute in H. apply StronglySorted_inv in H. destruct H as [_ H].
  apply Forall_inv in H. destruct H as [H|[_ H]]; discriminate.
Qed.

(** C10 (amended): for every set of scored candidates for one job, and
    every order the database may give rows of equal score, the ranking query
    returns the list of the job's rows in the caller's organization, each
    with its candidate and its score, sorted by overall fit score
    descending: the first [limit] rows in the database's order, without the
    rows whose candidate is gone, so all of the job's rows when [limit]
    covers them and every candidate exists. The order of entries with equal
    scores is the one the database returned, the candidate identifier plays
    no part. *)
Theorem top_candidates_sorted_by_score
  (order_by : list Application -> list Application)
  (db : Db) (job_id organization_id : string) (limit : nat) :
  sql_order_by_desc order_by ->
  (forall a, In a (applications db) -> application_job_id a = job_id ->
             fit_score a <> None) ->
  StronglySorted score_not_below
    (get_top_candidates order_by db job_id organization_id limit) /\
  (List.length (get_top_candidates order_by db job_id organization_id limit) <= limit)%nat /\
  (forall e, In e (get_top_candidates order_by db job_id organization_id limit) ->
     In (rc_application e) (applications db) /\
     application_job_id (rc_application e) = job_id /\
     application_organization_id (rc_application e) = organization_id /\
     In (rc_candidate e) (candidates db) /\
     candidate_id_of (rc_candidate e) = application_candidate_id (rc_application e) /\
     exists q, fit_score (rc_application e) = Some q /\ rc_fit_score e == q) /\
  map rc_application (get_top_candidates order_by db job_id organization_id limit)
  = filter (candidate_exists db)
      (firstn limit (order_by (job_rows db job_id organization_id))) /\
  (forall e, In e (get_top_candidates order_by db job_id organization_id limit) ->
     ranked_entry db (rc_application e) = Some e) /\
  ((List.length (job_rows db job_id organization_id) <= limit)%nat ->
   (forall a, In a (job_rows db job_id organization_id) -> candidate_exists db a = true) ->
   Permutation (job_rows db job_id organization_id)
     (map rc_application (get_top_candidates order_by db job_id organization_id limit))).
Proof.
  intros Hsql Hscored.
  assert (Hmap : map rc_application
                   (get_top_candidates order_by db job_id organization_id limit)
                 = filter (candidate_exists db)
                     (firstn limit (order_by (job_rows db job_id organization_id)))).
  { unfold get_top_candidates. rewrite results_loop. cbn [app].
    fold (job_rows db job_id organization_id). apply entries_applications. }
  assert (Hall : (List.length (job_rows db job_id organization_id) <= limit)%nat ->
            (forall a, In a (job_rows db job_id organization_id) ->
                       candidate_exists db a = true) ->
            Permutation (job_rows db job_id organization_id)
              (map rc_application
                 (get_top_candidates order_by db job_id organization_id limit))).
  { intros Hlen Hex. rewrite Hmap.
    destruct (Hsql (job_rows db job_id organization_id)) as [Hp _].
    rewrite firstn_all2 by (rewrite <- (Permutation_length Hp); exact Hlen).
    rewrite filter_all_true; [exact Hp|].
    intros a Ha. apply Hex. now apply (Permutation_in _ (Permutation_sym Hp)). }
  assert (Hentry : forall e,
            In e (get_top_candidates order_by db job_id organization_id limit) ->
            ranked_entry db (rc_application e) = Some e).
  { unfold get_top_candidates. rewrite results_loop. cbn [app].
    intros e He. apply in_flat_map in He. destruct He as (a & _ & He).
    destruct (ranked_entry db a) as [e'|] eqn:R; [|contradiction].
    destruct He as [<-|[]].
    destruct (ranked_entry_some db a e' R) as (-> & _). exact R. }
  revert Hmap Hall Hentry.
  unfold get_top_candidates. rewrite results_loop.
  cbn [app]. intros Hmap Hall Hentry.
  set (selected := filter _ (applications db)).
  set (rows := firstn limit (order_by selected)).
  destruct (Hsql selected) as [Hperm Hsorted].
  assert (Hrows : forall a, In a rows ->
            In a (applications db) /\ application_job_id a = job_id /\
            application_organization_id a = organization_id).
  { intros a Ha. apply in_firstn in Ha.
    apply (Permutation_in _ (Permutation_sym Hperm)) in Ha.
    apply filter_In in Ha. destruct Ha as [Hin Hc].
    apply andb_true_iff in Hc. destruct Hc as [Hj Ho].
    apply String.eqb_eq in Hj, Ho. auto. }
  assert (Hq : forall a, In a rows -> exists q, fit_score a = Some q).
  { intros a Ha. destruct (Hrows a Ha) as (Hin & Hj & _).
    destruct (fit_score a) as [q|] eqn:E; [now exists q|].
    exfalso. now apply (Hscored a Hin Hj). }
  split; [|split; [|split; [|split; [exact Hmap | split; [exact Hentry | exact Hall]]]]].
  - apply (StronglySorted_entries fit_score_desc).
    + intros a b x y Ha Hb Hab Hx Hy.
      apply ranked_entry_some in Hx, Hy.
      destruct Hx as (_ & Hx & _), Hy as (_ & Hy & _).
      destruct (Hq a Ha) as [qa Ea], (Hq b Hb) as [qb Eb].
      unfold score_not_below. rewrite Hx, Hy, Ea, Eb, !or_num_some.
      unfold fit_score_desc in Hab. now rewrite Ea, Eb in Hab.
    + now apply StronglySorted_firstn.
  - eapply Nat.le_trans; [apply entries_length|]. apply firstn_le_length.
  - intros e He. apply in_flat_map in He. destruct He as (a & Ha & He).
    destruct (ranked_entry db a) as [e'|] eqn:R; [|contradiction].
    destruct He as [<-|[]].
    apply ranked_entry_some in R. destruct R as (-> & Hs & Hc & Hid).
    destruct (Hrows a Ha) as (Hin & Hj & Ho). destruct (Hq a Ha) as [q Eq].
    repeat (split; [assumption|]).
    exists q. split; [assumption|]. rewrite Hs, Eq. apply or_num_some.
Qed.

Lemma top_candidates_sorted_by_score_witness :
  StronglySorted score_not_below
    (get_top_candidates storage_order_by_desc tied_db "job-1" "org-1" 10).
Proof.
  apply (top_candidates_sorted_by_score storage_order_by_desc tied_db "job-1" "org-1" 10).
  - apply storage_order_is_sql_order.
  - simpl. intros a [<-|[<-|[]]] _; discriminate.
Defined.

(** ** The worked examples of the specification *)

Example skill_both_empty :
  _calculate_skill_match (Sample.job (JVal []) JNull JNull None)
    (Sample.candidate "cand-1" [] None [] None) == 0.
Proof. reflexivity. Qed.

Example skill_case_insensitive :
  _calculate_skill_match (Sample.job (JVal ["Python"]) JNull JNull None)
    (Sample.candidate "cand-1" ["python"] None [] None) == 1.
Proof. reflexivity. Qed.

Example skill_one_substring_of_two :
  _calculate_skill_match (Sample.job (JVal ["Python"; "React"]) JNull JNull None)
    (Sample.candidate "cand-1" ["PythonScript"] None [] None) == 0.4.
Proof. reflexivity. Qed.

Example experience_candidate_absent :
  _calculate_experience_match (Sample.job JNull (JVal 5) JNull None)
    (Sample.candidate "cand-1" [] None [] None) == 0.5.
Proof. reflexivity. Qed.

Example experience_met :
  _calculate_experience_match (Sample.job JNull (JVal 5) JNull None)
    (Sample.candidate "cand-1" [] (Some 5) [] None) == 1.
Proof. reflexivity. Qed.

Example experience_half :
  _calculate_experience_match (Sample.job JNull (JVal 10) JNull None)
    (Sample.candidate "cand-1" [] (Some 5) [] None) == 0.5.
Proof. reflexivity. Qed.

Example location_same_city :
  _calculate_location_match (Sample.job JNull JNull JNull (Some "NYC"))
    (Sample.candidate "cand-1" [] None [] (Some "NYC")) == 1.
Proof. reflexivity. Qed.

Example location_other_city :
  _calculate_location_match (Sample.job JNull JNull JNull (Some "NYC"))
    (Sample.candidate "cand-1" [] None [] (Some "LA")) == 0.3.
Proof. reflexivity. Qed.

(** The end-to-end scenario: skill 0.5, experience 0.6, education 1.0,
    location 1.0, culture 0.5, overall 0.65, and two recommendations. *)
Example scenario_scores :
  let s := individual_scores (Sample.env 0) Sample.scenario_job Sample.scenario_candidate in
  skill_match s == 0.5 /\ experience_match s == 0.6 /\ education_match s == 1 /\
  location_match s == 1 /\ culture_fit s == 0.5 /\ overall_score_of s == 0.65 /\
  _generate_recommendations Sample.scenario_job Sample.scenario_candidate s
  = [DevelopSkills ["AWS"]; GainExperience (5 - 3); ResearchCulture].
Proof. repeat split. Qed.

(** * Further properties of the source *)

(** ** Location: symmetry and normal forms *)

Lemma location_match_of_locations (job : Job) (candidate : Candidate) (jl cl : string) :
  job_location job = Some jl -> candidate_location candidate = Some cl ->
  jl <> "" -> cl <> "" ->
  _calculate_location_match job candidate =
  if (normalized jl =? normalized cl)%string then 1.0
  else if Py.contains (normalized jl) (normalized cl)
          || Py.contains (normalized cl) (normalized jl) then 0.8
  else if Py.contains "remote" (normalized jl)
          || Py.contains "remote" (normalized cl) then 0.9
  else 0.3.
Proof.
  intros Hj Hc Nj Nc. unfold _calculate_location_match. rewrite Hj, Hc.
  destruct jl as [|a jl]; [congruence|]. destruct cl as [|b cl]; [congruence|].
  reflexivity.
Qed.

Lemma location_match_missing (job : Job) (candidate : Candidate) :
  Py.truthy_str (job_location job) = false
  \/ Py.truthy_str (candidate_location candidate) = false ->
  _calculate_location_match job candidate = 0.5.
Proof.
  unfold _calculate_location_match.
  intros [H|H]; rewrite H; cbn [negb orb]; trivial. now rewrite orb_true_r.
Qed.

(** X1: the location sub-score does not depend on which side is the job:
    exchanging the job's location and the candidate's location leaves it
    unchanged. *)
Theorem location_match_symmetric (job job' : Job) (candidate candidate' : Candidate) :
  job_location job' = candidate_location candidate ->
  candidate_location candidate' = job_location job ->
  _calculate_location_match job' candidate' = _calculate_location_match job candidate.
Proof.
  intros Hj Hc.
  destruct (Py.truthy_str (job_location job)) eqn:Tj.
  - destruct (Py.truthy_str (candidate_location candidate)) eqn:Tc.
    + destruct (job_location job) as [jl|] eqn:Ej; [|discriminate].
      destruct (candidate_location candidate) as [cl|] eqn:Ec; [|discriminate].
      assert (Nj : jl <> "") by (intros ->; discriminate).
      assert (Nc : cl <> "") by (intros ->; discriminate).
      rewrite (location_match_of_locations job candidate jl cl Ej Ec Nj Nc).
      rewrite (location_match_of_locations job' candidate' cl jl Hj Hc Nc Nj).
      rewrite (String.eqb_sym (normalized cl)).
      rewrite (orb_comm (Py.contains (normalized cl) (normalized jl))).
      rewrite (orb_comm (Py.contains "remote" (normalized cl))).
      reflexivity.
    + rewrite (location_match_missing job candidate) by auto.
      apply location_match_missing. left. now rewrite Hj.
  - rewrite (location_match_missing job candidate) by auto.
    apply location_match_missing. right. now rewrite Hc.
Qed.

Lemma location_match_symmetric_witness :
  _calculate_location_match
    (Sample.job JNull JNull JNull (Some "San Francisco"))
    (Sample.candidate "cand-8" [] None [] (Some "Remote"))
  = _calculate_location_match
      (Sample.job JNull JNull JNull (Some "Remote"))
      (Sample.candidate "cand-8" [] None [] (Some "San Francisco")).
Proof.
  apply location_match_symmetric; reflexivity.
Defined.

Lemma lower_app (a b : string) :
  Py.lower (a ++ b)%string = (Py.lower a ++ Py.lower b)%string.
Proof.
  induction a as [|c a IH]; simpl; [reflexivity | now rewrite IH].
Qed.

Lemma is_space_lower_char (c : ascii) : Py.is_space (Py.lower_char c) = Py.is_space c.
Proof.
  destruct c as [[] [] [] [] [] [] [] []]; reflexivity.
Qed.

Lemma blank_lower (w : string) : blank w -> blank (Py.lower w).
Proof.
  unfold blank. induction w as [|c w IH]; simpl; [intros _ x []|].
  intros H x [<-|Hx].
  - rewrite is_space_lower_char. apply H. now left.
  - apply IH; auto.
Qed.

Lemma lstrip_blank (w : string) : blank w -> Py.lstrip w = "".
Proof.
  unfold blank. induction w as [|c w IH]; simpl; trivial.
  intro H. rewrite (H c (or_introl eq_refl)). apply IH. auto.
Qed.

Lemma lstrip_blank_app (w s : string) :
  blank w -> Py.lstrip (w ++ s)%string = Py.lstrip s.
Proof.
  unfold blank. induction w as [|c w IH]; simpl; trivial.
  intro H. rewrite (H c (or_introl eq_refl)). apply IH. auto.
Qed.

Lemma rstrip_blank (w : string) : blank w -> Py.rstrip w = "".
Proof.
  unfold blank. induction w as [|c w IH]; simpl; trivial.
  intro H. rewrite IH by auto. now rewrite (H c (or_introl eq_refl)).
Qed.

Lemma rstrip_app_blank (s w : string) :
  blank w -> Py.rstrip (s ++ w)%string = Py.rstrip s.
Proof.
  intro H. induction s as [|c s IH]; simpl.
  - now apply rstrip_blank.
  - now rewrite IH.
Qed.

Lemma strip_app_blank (s w : string) :
  blank w -> Py.strip (s ++ w)%string = Py.strip s.
Proof.
  intro H. unfold Py.strip. induction s as [|c s IH].
  - simpl. rewrite (lstrip_blank w H). reflexivity.
  - change (String c s ++ w)%string with (String c (s ++ w)%string).
    cbn [Py.lstrip]. destruct (Py.is_space c); [exact IH|].
    change (String c (s ++ w)%string) with (String c s ++ w)%string.
    now apply rstrip_app_blank.
Qed.

Lemma normalized_padding (w1 s w2 : string) :
  blank w1 -> blank w2 -> normalized (w1 ++ s ++ w2)%string = normalized s.
Proof.
  intros H1 H2. unfold normalized. rewrite !lower_app.
  unfold Py.strip at 1. rewrite (lstrip_blank_app _ _ (blank_lower w1 H1)).
  fold (Py.strip (Py.lower s ++ Py.lower w2)).
  apply strip_app_blank. now apply blank_lower.
Qed.

Lemma lower_empty (s : string) : Py.lower s = "" -> s = "".
Proof. destruct s; [reflexivity | discriminate]. Qed.

(** X2: letter case and surrounding white space of the two locations do
    not matter: if each location of a second pair is, up to the case of its
    letters, a location of the first pair with white space put before and
    after it, the two pairs get the same location sub-score. *)
Theorem location_match_ignores_case_and_padding
  (job job' : Job) (candidate candidate' : Candidate)
  (jl cl jl' cl' w1 w2 w3 w4 : string) :
  job_location job = Some jl -> candidate_location candidate = Some cl ->
  jl <> "" -> cl <> "" ->
  blank w1 -> blank w2 -> blank w3 -> blank w4 ->
  job_location job' = Some jl' -> candidate_location candidate' = Some cl' ->
  Py.lower jl' = Py.lower (w1 ++ jl ++ w2)%string ->
  Py.lower cl' = Py.lower (w3 ++ cl ++ w4)%string ->
  _calculate_location_match job' candidate' = _calculate_location_match job candidate.
Proof.
  intros Hj Hc Nj Nc B1 B2 B3 B4 Hj' Hc' Ej Ec.
  assert (Nj' : jl' <> "").
  { intros ->. symmetry in Ej. apply lower_empty in Ej.
    destruct w1; [destruct jl; [congruence | discriminate] | discriminate]. }
  assert (Nc' : cl' <> "").
  { intros ->. symmetry in Ec. apply lower_empty in Ec.
    destruct w3; [destruct cl; [congruence | discriminate] | discriminate]. }
  rewrite (location_match_of_locations job candidate jl cl Hj Hc Nj Nc).
  rewrite (location_match_of_locations job' candidate' jl' cl' Hj' Hc' Nj' Nc').
  assert (Fj : normalized jl' = normalized jl).
  { unfold normalized at 1. rewrite Ej. fold (normalized (w1 ++ jl ++ w2)).
    now apply normalized_padding. }
  assert (Fc : normalized cl' = normalized cl).
  { unfold normalized at 1. rewrite Ec. fold (normalized (w3 ++ cl ++ w4)).
    now apply normalized_padding. }
  now rewrite Fj, Fc.
Qed.

Lemma location_match_ignores_case_and_padding_witness :
  _calculate_location_match
    (Sample.job JNull JNull JNull (Some "  BERLIN "))
    (Sample.candidate "cand-8" [] None [] (Some "Berlin, Germany  "))
  = _calculate_location_match
      (Sample.job JNull JNull JNull (Some "Berlin"))
      (Sample.candidate "cand-8" [] None [] (Some "berlin, germany")).
Proof.
  apply (location_match_ignores_case_and_padding _ _ _ _
           "Berlin" "berlin, germany" "  BERLIN " "Berlin, Germany  "
           "  " " " "" "  ");
    try reflexivity; try discriminate;
    intros c H; simpl in H;
    repeat (destruct H as [<-|H]; [reflexivity|]); contradiction.
Defined.

(** ** Skill match: case and overlap *)

Lemma skill_inner_loop_lowered (x : string) (cs cs' : list string) :
  map Py.lower cs = map Py.lower cs' ->
  skill_inner_loop x cs = skill_inner_loop x cs'.
Proof.
  revert cs'. induction cs as [|c cs IH]; intros [|c' cs']; simpl;
    try discriminate; trivial.
  intros [= Hc Hcs]. rewrite Hc, (IH cs' Hcs). reflexivity.
Qed.

Lemma matched_skills_lowered (cs cs' js js' : list string) (acc : Q) :
  map Py.lower js = map Py.lower js' ->
  map Py.lower cs = map Py.lower cs' ->
  fold_left (fun m j => m + skill_inner_loop (Py.lower j) cs) js acc
  = fold_left (fun m j => m + skill_inner_loop (Py.lower j) cs') js' acc.
Proof.
  intros Hj Hc. revert js' Hj acc.
  induction js as [|j js IH]; intros [|j' js']; simpl; try discriminate; trivial.
  intros [= Hj Hjs] acc.
  rewrite Hj, (skill_inner_loop_lowered (Py.lower j') cs cs' Hc).
  now apply IH.
Qed.

(** X3: the skill sub-score is blind to the case of the letters: two pairs
    of skill lists that agree after lower-casing, element by element, get
    the same sub-score. *)
Theorem skill_match_case_insensitive (job job' : Job) (candidate candidate' : Candidate) :
  map Py.lower (Py.or_list (job_skills_of job) [])
  = map Py.lower (Py.or_list (job_skills_of job') []) ->
  map Py.lower (Py.or_list (skills candidate) [])
  = map Py.lower (Py.or_list (skills candidate') []) ->
  _calculate_skill_match job candidate = _calculate_skill_match job' candidate'.
Proof.
  unfold _calculate_skill_match.
  destruct (job_skills_of job) as [[|j js]|], (job_skills_of job') as [[|j' js']|];
    cbn [Py.or_list map]; intro Hj; try discriminate;
    destruct (skills candidate) as [[|c cs]|], (skills candidate') as [[|c' cs']|];
    cbn [Py.or_list map]; intro Hc; try discriminate;
    cbn [Py.truthy_list negb orb]; trivial.
  assert (L : List.length (j :: js) = List.length (j' :: js')).
  { rewrite <- (length_map Py.lower (j :: js)), <- (length_map Py.lower (j' :: js')).
    cbn [map]. now rewrite Hj. }
  rewrite L.
  rewrite (matched_skills_lowered (c :: cs) (c' :: cs') (j :: js) (j' :: js') 0 Hj Hc).
  reflexivity.
Qed.

Lemma skill_match_case_insensitive_witness :
  _calculate_skill_match
    (Sample.job (JVal ["PYTHON"; "aws"]) JNull JNull None)
    (Sample.candidate "cand-1" ["Python"; "DOCKER"] None [] None)
  = _calculate_skill_match Sample.scenario_job Sample.scenario_candidate.
Proof.
  apply skill_match_case_insensitive; reflexivity.
Defined.

Lemma skill_match_unclamped (job : Job) (candidate : Candidate)
  (js cs : list string) :
  job_skills_of job = Some js -> skills candidate = Some cs ->
  js <> [] -> cs <> [] ->
  _calculate_skill_match job candidate
  == Qsum (map (first_match_credit cs) js) / inject_Z (Z.of_nat (List.length js)).
Proof.
  intros Hj Hc Nj Nc. unfold _calculate_skill_match. rewrite Hj, Hc.
  destruct js as [|j js]; [congruence|]. destruct cs as [|c cs]; [congruence|].
  cbn [Py.or_list Py.truthy_list negb orb].
  set (req := j :: js). set (cands := c :: cs).
  pose proof (skill_ratio_range cands req ltac:(discriminate)) as [_ R1].
  change (0 <? List.length req)%nat with true. cbv iota.
  destruct (Py.ltb 1.0 _) eqn:L.
  - apply ltb_true in L. exfalso. apply (Qlt_not_le _ _ L).
    apply Qle_trans with 1; [exact R1 | discriminate].
  - rewrite matched_skills_sum.
    rewrite (map_ext _ (first_match_credit cands) (skill_inner_loop_first_match cands)).
    unfold Qdiv. lra.
Qed.

Lemma first_match_credit_cases (cs : list string) (j : string) :
  first_match_credit cs j = 0 \/ first_match_credit cs j = 0.8
  \/ first_match_credit cs j = 1.
Proof.
  unfold first_match_credit. destruct (find _ cs); auto.
  destruct (_ =? _)%string; auto.
Qed.

Lemma find_none_iff {A} (p : A -> bool) (l : list A) :
  find p l = None <-> forall x, In x l -> p x = false.
Proof.
  split; [apply find_none|].
  induction l as [|a l IH]; simpl; trivial.
  intro H. rewrite (H a (or_introl eq_refl)). apply IH. auto.
Qed.

Lemma first_match_credit_zero (cs : list string) (j : string) :
  first_match_credit cs j == 0 <-> forall c, In c cs -> ~ skills_overlap j c.
Proof.
  unfold first_match_credit, skills_overlap.
  destruct (find _ cs) as [c|] eqn:F.
  - split.
    + destruct (_ =? _)%string; discriminate.
    + intro H. exfalso. apply find_some in F. destruct F as [Hin Hp].
      apply (H c Hin). apply orb_true_iff in Hp.
      destruct Hp as [Hp|Hp]; apply contains_iff in Hp; auto.
  - split; [|reflexivity]. intros _ c Hin [O|O]; apply contains_iff in O;
      pose proof (proj1 (find_none_iff _ _) F c Hin) as P;
      apply orb_false_iff in P; destruct P; congruence.
Qed.

Lemma Qsum_zero_iff (l : list Q) :
  Forall (fun x => 0 <= x) l ->
  (Qsum l == 0 <-> Forall (fun x => x == 0) l).
Proof.
  induction 1 as [|x l Hx Hl IH].
  - split; [constructor | reflexivity].
  - change (Qsum (x :: l)) with (x + Qsum l).
    assert (0 <= Qsum l).
    { clear IH. induction Hl as [|y l Hy _ IHl]; [discriminate|].
      change (Qsum (y :: l)) with (y + Qsum l). lra. }
    split.
    + intro E. constructor; [lra|]. apply IH. lra.
    + intro F. inversion F as [|? ? Fx Fl]; subst. apply IH in Fl. lra.
Qed.

(** X4: with both skill lists present and not empty, the skill sub-score
    is 0 exactly when no required skill matches any candidate skill, where
    two skills match when, lower-cased, one occurs in the other. *)
Theorem skill_match_zero_iff (job : Job) (candidate : Candidate)
  (js cs : list string) :
  job_skills_of job = Some js -> skills candidate = Some cs ->
  js <> [] -> cs <> [] ->
  (_calculate_skill_match job candidate == 0 <->
   forall j c, In j js -> In c cs -> ~ skills_overlap j c).
Proof.
  intros Hj Hc Nj Nc.
  rewrite (skill_match_unclamped job candidate js cs Hj Hc Nj Nc).
  assert (Hn : 0 < inject_Z (Z.of_nat (List.length js))).
  { apply inject_nat_pos. destruct js; [congruence | simpl; lia]. }
  assert (Hnn : ~ inject_Z (Z.of_nat (List.length js)) == 0) by lra.
  assert (Hpos : Forall (fun x => 0 <= x) (map (first_match_credit cs) js)).
  { apply Forall_forall. intros x Hx. apply in_map_iff in Hx.
    destruct Hx as [j [<- _]].
    destruct (first_match_credit_cases cs j) as [E|[E|E]]; rewrite E; discriminate. }
  split.
  - intros E j c Hjin Hcin.
    assert (S0 : Qsum (map (first_match_credit cs) js) == 0).
    { transitivity (inject_Z (Z.of_nat (List.length js))
                    * (Qsum (map (first_match_credit cs) js)
                       / inject_Z (Z.of_nat (List.length js)))).
      - symmetry. apply Qmult_div_r. exact Hnn.
      - rewrite E. lra. }
    apply (Qsum_zero_iff _ Hpos) in S0. rewrite Forall_forall in S0.
    apply (proj1 (first_match_credit_zero cs j)); trivial.
    apply S0. now apply in_map.
  - intro H.
    assert (S0 : Qsum (map (first_match_credit cs) js) == 0).
    { apply (Qsum_zero_iff _ Hpos). apply Forall_forall. intros x Hx.
      apply in_map_iff in Hx. destruct Hx as [j [<- Hjin]].
      apply first_match_credit_zero. intros c Hcin. now apply H. }
    rewrite S0. unfold Qdiv. lra.
Qed.

Lemma skill_match_zero_iff_witness :
  _calculate_skill_match
    (Sample.job (JVal ["Rust"]) JNull JNull None)
    (Sample.candidate "cand-1" ["Go"] None [] None) == 0
  <-> forall j c, In j ["Rust"] -> In c ["Go"] -> ~ skills_overlap j c.
Proof.
  apply (skill_match_zero_iff _ _ ["Rust"] ["Go"]); try reflexivity; discriminate.
Defined.

(** ** Recommendations: what the list can hold *)

(** When the [try] block does not raise, its list is the list of the six
    rules; this also covers a [null] requirement whose rule is not reached. *)
Lemma recommendations_try_rules (job : Job) (candidate : Candidate) (scores : Scores)
  (l : list Recommendation) :
  recommendations_try job candidate scores = Some l ->
  l = six_rules job candidate scores.
Proof.
  unfold recommendations_try, six_rules,
    rule_skill_gap, rule_experience_gap, rule_culture, rule_skill_praise,
    rule_experience_praise, required_skill_list, required_years.
  destruct (parsed_requirements job) as [p|].
  - destruct (required_skills p) as [| |rs], (experience_required p) as [| |y];
      simpl get;
      destruct (Py.ltb (skill_match scores) 0.7);
      destruct (Py.ltb (experience_match scores) 0.8);
      cbn [filter andb app List.length Nat.eqb negb];
      try discriminate;
      try destruct (filter _ rs) as [|m ms];
      cbn [andb app List.length Nat.eqb negb];
      try destruct (Py.ltb (Py.or_num (experience_years candidate) 0) _);
      destruct (Py.ltb (culture_fit scores) 0.6);
      destruct (Py.gtb (skill_match scores) 0.9);
      destruct (Py.gtb (experience_match scores) 0.9);
      intros [= <-]; reflexivity.
  - destruct (Py.ltb (skill_match scores) 0.7);
      destruct (Py.ltb (experience_match scores) 0.8);
      cbn [filter andb app List.length Nat.eqb negb];
      try destruct (Py.ltb (Py.or_num (experience_years candidate) 0) _);
      destruct (Py.ltb (culture_fit scores) 0.6);
      destruct (Py.gtb (skill_match scores) 0.9);
      destruct (Py.gtb (experience_match scores) 0.9);
      intros [= <-]; reflexivity.
Qed.

Lemma generate_recommendations_cases (job : Job) (candidate : Candidate) (scores : Scores) :
  _generate_recommendations job candidate scores = six_rules job candidate scores
  \/ _generate_recommendations job candidate scores = [ConsiderApplying].
Proof.
  unfold _generate_recommendations.
  destruct (recommendations_try job candidate scores) as [l|] eqn:T; [left|now right].
  now apply recommendations_try_rules.
Qed.

Lemma below_excludes_above (x a b : Q) :
  a <= b -> Py.ltb x a = true -> Py.gtb x b = false.
Proof.
  intros Hab H. apply ltb_true in H. unfold Py.gtb. apply ltb_false. lra.
Qed.

Lemma rule_lengths (job : Job) (candidate : Candidate) (scores : Scores) :
  (List.length (rule_skill_gap job candidate scores)
   + List.length (rule_skill_praise scores) <= 1)%nat /\
  (List.length (rule_experience_gap job candidate scores)
   + List.length (rule_experience_praise scores) <= 1)%nat /\
  (List.length (rule_culture scores) <= 1)%nat.
Proof.
  unfold rule_skill_gap, rule_skill_praise, rule_experience_gap,
    rule_experience_praise, rule_culture.
  repeat split.
  - destruct (Py.ltb (skill_match scores) 0.7) eqn:S.
    + rewrite (below_excludes_above _ 0.7 0.9 ltac:(discriminate) S).
      destruct (true && _); simpl; lia.
    + cbn [andb]. destruct (Py.gtb _ _); simpl; lia.
  - destruct (Py.ltb (experience_match scores) 0.8) eqn:S.
    + rewrite (below_excludes_above _ 0.8 0.9 ltac:(discriminate) S).
      destruct (true && _); simpl; lia.
    + cbn [andb]. destruct (Py.gtb _ _); simpl; lia.
  - destruct (Py.ltb _ _); simpl; lia.
Qed.

(** X5: the list of recommendations never has more than three entries,
    so the cut to five never removes one: a gap entry and the praise for
    the same score exclude each other. *)
Theorem recommendations_at_most_three (job : Job) (candidate : Candidate) (scores : Scores) :
  (1 <= List.length (_generate_recommendations job candidate scores) <= 3)%nat /\
  (recommendations_try job candidate scores <> None ->
   _generate_recommendations job candidate scores
   = match rule_skill_gap job candidate scores ++ rule_experience_gap job candidate scores
           ++ rule_culture scores ++ rule_skill_praise scores
           ++ rule_experience_praise scores with
     | [] => [GoodOverallMatch]
     | specific => specific
     end).
Proof.
  pose proof (rule_lengths job candidate scores) as (L1 & L2 & L3).
  assert (E : six_rules job candidate scores
              = match rule_skill_gap job candidate scores
                      ++ rule_experience_gap job candidate scores
                      ++ rule_culture scores ++ rule_skill_praise scores
                      ++ rule_experience_praise scores with
                | [] => [GoodOverallMatch]
                | specific => specific
                end /\
              (1 <= List.length (six_rules job candidate scores) <= 3)%nat).
  { unfold six_rules.
    set (specific := _ ++ _ ++ _ ++ _ ++ _).
    assert (Ls : (List.length specific <= 3)%nat).
    { unfold specific. rewrite !length_app. lia. }
    destruct specific as [|r rest].
    - split; [reflexivity | simpl; lia].
    - rewrite firstn_all2 by (simpl in *; lia). split; [reflexivity | simpl in *; lia]. }
  destruct E as [E1 E2]. split.
  - destruct (generate_recommendations_cases job candidate scores) as [H|H];
      rewrite H; [exact E2 | simpl; lia].
  - intro N. unfold _generate_recommendations.
    destruct (recommendations_try job candidate scores) as [l|] eqn:T; [|congruence].
    rewrite (recommendations_try_rules _ _ _ _ T). exact E1.
Qed.

Lemma recommendations_at_most_three_witness :
  _generate_recommendations Sample.scenario_job Sample.scenario_candidate
    (individual_scores (Sample.env 0) Sample.scenario_job Sample.scenario_candidate)
  = [DevelopSkills ["AWS"]; GainExperience (5 - 3); ResearchCulture].
Proof.
  rewrite (proj2 (recommendations_at_most_three Sample.scenario_job
                    Sample.scenario_candidate
                    (individual_scores (Sample.env 0) Sample.scenario_job
                       Sample.scenario_candidate)));
    [reflexivity | discriminate].
Defined.

Lemma in_six_rules (job : Job) (candidate : Candidate) (scores : Scores)
  (r : Recommendation) :
  In r (six_rules job candidate scores) ->
  In r (rule_skill_gap job candidate scores) \/
  In r (rule_experience_gap job candidate scores) \/
  In r (rule_culture scores) \/ In r (rule_skill_praise scores) \/
  In r (rule_experience_praise scores) \/
  (r = GoodOverallMatch /\ six_rules job candidate scores = [GoodOverallMatch]).
Proof.
  unfold six_rules. set (specific := _ ++ _ ++ _ ++ _ ++ _).
  intro H. destruct specific as [|x rest] eqn:E.
  - simpl in H. destruct H as [<-|[]]. repeat right. split; reflexivity.
  - apply in_firstn in H. rewrite <- E in H. unfold specific in H.
    repeat (apply in_app_or in H; destruct H as [H|H]; [tauto|]). tauto.
Qed.

Lemma in_simple_rules (scores : Scores) (r : Recommendation) :
  (In r (rule_culture scores) -> r = ResearchCulture) /\
  (In r (rule_skill_praise scores) -> r = ExcellentSkillMatch) /\
  (In r (rule_experience_praise scores) -> r = StrongExperienceMatch).
Proof.
  unfold rule_culture, rule_skill_praise, rule_experience_praise.
  repeat split.
  - destruct (Py.ltb _ _); simpl; intro H;
      [destruct H as [H|[]]; auto | contradiction].
  - destruct (Py.gtb _ _); simpl; intro H;
      [destruct H as [H|[]]; auto | contradiction].
  - destruct (Py.gtb _ _); simpl; intro H;
      [destruct H as [H|[]]; auto | contradiction].
Qed.

Lemma in_rule_skill_gap (job : Job) (candidate : Candidate) (scores : Scores)
  (r : Recommendation) :
  In r (rule_skill_gap job candidate scores) ->
  skill_match scores < 0.7 /\
  filter (skill_is_missing (Py.or_list (skills candidate) [])) (required_skill_list job)
  <> [] /\
  r = DevelopSkills
        (firstn 3 (filter (skill_is_missing (Py.or_list (skills candidate) []))
                     (required_skill_list job))).
Proof.
  unfold rule_skill_gap.
  destruct (Py.ltb (skill_match scores) 0.7) eqn:S; cbn [andb]; [|intros []].
  destruct (filter _ (required_skill_list job)) as [|m ms]; simpl; [intros []|].
  intros [<-|[]]. apply ltb_true in S. repeat split; trivial. discriminate.
Qed.

Lemma in_rule_experience_gap (job : Job) (candidate : Candidate) (scores : Scores)
  (r : Recommendation) :
  In r (rule_experience_gap job candidate scores) ->
  experience_match scores < 0.8 /\
  Py.or_num (experience_years candidate) 0 < required_years job /\
  r = GainExperience (required_years job - Py.or_num (experience_years candidate) 0).
Proof.
  unfold rule_experience_gap.
  destruct (Py.ltb (experience_match scores) 0.8) eqn:S; cbn [andb]; [|intros []].
  destruct (Py.ltb _ (required_years job)) eqn:G; simpl; [|intros []].
  intros [<-|[]]. apply ltb_true in S, G. auto.
Qed.

(** X6: the two generic entries never stand beside another entry: if the
    list holds "Good overall match - consider applying for this position",
    or the handler's "Consider applying for this position", that entry is
    the whole list. *)
Theorem generic_entry_stands_alone (job : Job) (candidate : Candidate) (scores : Scores) :
  (In GoodOverallMatch (_generate_recommendations job candidate scores) ->
   _generate_recommendations job candidate scores = [GoodOverallMatch]) /\
  (In ConsiderApplying (_generate_recommendations job candidate scores) ->
   _generate_recommendations job candidate scores = [ConsiderApplying]).
Proof.
  assert (R : forall r, In r (six_rules job candidate scores) ->
                        r = GoodOverallMatch \/ r = ConsiderApplying ->
                        six_rules job candidate scores = [GoodOverallMatch]).
  { intros r H Hr. apply in_six_rules in H.
    pose proof (in_simple_rules scores r) as (C1 & C2 & C3).
    destruct H as [H|[H|[H|[H|[H|[_ H]]]]]]; trivial; exfalso.
    - apply in_rule_skill_gap in H. destruct H as (_ & _ & ->).
      destruct Hr; discriminate.
    - apply in_rule_experience_gap in H. destruct H as (_ & _ & ->).
      destruct Hr; discriminate.
    - rewrite (C1 H) in Hr. destruct Hr; discriminate.
    - rewrite (C2 H) in Hr. destruct Hr; discriminate.
    - rewrite (C3 H) in Hr. destruct Hr; discriminate. }
  destruct (generate_recommendations_cases job candidate scores) as [E|E]; rewrite E.
  - split; intro H.
    + apply (R _ H). now left.
    + exfalso. pose proof (R _ H (or_intror eq_refl)) as E'.
      rewrite E' in H. destruct H as [H|[]]. discriminate.
  - split; intro H; trivial. destruct H as [H|[]]. discriminate.
Qed.

Lemma generic_entry_stands_alone_witness :
  _generate_recommendations job_without_years java_candidate
    (individual_scores (Sample.env 0) job_without_years java_candidate)
  = [ConsiderApplying].
Proof.
  apply (proj2 (generic_entry_stands_alone job_without_years java_candidate
                  (individual_scores (Sample.env 0) job_without_years java_candidate))).
  left. reflexivity.
Defined.

Lemma skill_is_missing_true (candidate_skills : list string) (skill : string) :
  skill_is_missing candidate_skills skill = true <-> ~ has_skill candidate_skills skill.
Proof.
  unfold skill_is_missing, has_skill. rewrite negb_true_iff. split.
  - intros H [c [Hin Hc]].
    assert (existsb (String.eqb (Py.lower skill)) (map Py.lower candidate_skills) = true).
    { apply existsb_exists. exists (Py.lower c). split; [now apply in_map|].
      rewrite Hc. apply String.eqb_refl. }
    congruence.
  - intro H. destruct (existsb _ _) eqn:E; trivial. exfalso. apply H.
    apply existsb_exists in E. destruct E as [x [Hx Hq]].
    apply in_map_iff in Hx. destruct Hx as [c [<- Hin]].
    apply String.eqb_eq in Hq. exists c. auto.
Qed.

(** X7: a recommendation to develop skills is only given for a skill score
    below 0.7, names between one and three skills, and every skill it names
    is a required skill of the parsed requirements that the candidate's
    list does not hold, up to case. *)
Theorem develop_skills_names_missing_skills (job : Job) (candidate : Candidate)
  (scores : Scores) (named : list string) :
  In (DevelopSkills named) (_generate_recommendations job candidate scores) ->
  skill_match scores < 0.7 /\
  (1 <= List.length named <= 3)%nat /\
  (forall skill, In skill named ->
     In skill (required_skill_list job) /\
     ~ has_skill (Py.or_list (skills candidate) []) skill).
Proof.
  intro H.
  destruct (generate_recommendations_cases job candidate scores) as [E|E];
    rewrite E in H; [|destruct H as [H|[]]; discriminate].
  apply in_six_rules in H.
  pose proof (in_simple_rules scores (DevelopSkills named)) as (C1 & C2 & C3).
  destruct H as [H|[H|[H|[H|[H|[H _]]]]]];
    try (apply in_rule_experience_gap in H; destruct H as (_ & _ & H));
    try (apply C1 in H); try (apply C2 in H); try (apply C3 in H);
    try discriminate.
  apply in_rule_skill_gap in H. destruct H as (Hs & Hne & Hr).
  assert (En : named = firstn 3 (filter (skill_is_missing (Py.or_list (skills candidate) []))
                                   (required_skill_list job))) by congruence.
  clear Hr. subst named. split; [exact Hs|]. split.
  - rewrite length_firstn.
    destruct (filter _ (required_skill_list job)); [congruence|].
    cbn [List.length]. lia.
  - intros skill Hin. apply in_firstn in Hin. apply filter_In in Hin.
    destruct Hin as [Hin Hm]. split; trivial. now apply skill_is_missing_true.
Qed.

Lemma develop_skills_names_missing_skills_witness :
  skill_match
    (individual_scores (Sample.env 0) Sample.scenario_job Sample.scenario_candidate) < 0.7 /\
  (1 <= List.length ["AWS"] <= 3)%nat /\
  (forall skill, In skill ["AWS"] ->
     In skill (required_skill_list Sample.scenario_job) /\
     ~ has_skill (Py.or_list (skills Sample.scenario_candidate) []) skill).
Proof.
  apply (develop_skills_names_missing_skills Sample.scenario_job Sample.scenario_candidate).
  left. reflexivity.
Defined.

(** X8: a recommendation to gain experience is only given for an
    experience score below 0.8 and for a candidate whose years, counted as
    0 when missing, lie strictly below the years the parsed requirements
    ask for; the number it formats is the required years minus the
    candidate's years. (The entry carries that difference; the text of the
    source prints it with one decimal, so a small difference reads 0.0.) *)
Theorem gain_experience_only_below_requirement (job : Job) (candidate : Candidate)
  (scores : Scores) (gap : Q) :
  In (GainExperience gap) (_generate_recommendations job candidate scores) ->
  experience_match scores < 0.8 /\
  Py.or_num (experience_years candidate) 0 < required_years job /\
  gap = required_years job - Py.or_num (experience_years candidate) 0.
Proof.
  intro H.
  destruct (generate_recommendations_cases job candidate scores) as [E|E];
    rewrite E in H; [|destruct H as [H|[]]; discriminate].
  apply in_six_rules in H.
  pose proof (in_simple_rules scores (GainExperience gap)) as (C1 & C2 & C3).
  destruct H as [H|[H|[H|[H|[H|[H _]]]]]];
    try (apply in_rule_skill_gap in H; destruct H as (_ & _ & H));
    try (apply C1 in H); try (apply C2 in H); try (apply C3 in H);
    try discriminate.
  apply in_rule_experience_gap in H. destruct H as (Hs & Hg & Hr).
  assert (Eg : gap = required_years job - Py.or_num (experience_years candidate) 0)
    by congruence.
  clear Hr. subst gap. split; [exact Hs|]. split; [exact Hg | reflexivity].
Qed.

Lemma gain_experience_only_below_requirement_witness :
  experience_match
    (individual_scores (Sample.env 0) Sample.scenario_job Sample.scenario_candidate) < 0.8 /\
  Py.or_num (experience_years Sample.scenario_candidate) 0
  < required_years Sample.scenario_job /\
  5 - 3 = required_years Sample.scenario_job
          - Py.or_num (experience_years Sample.scenario_candidate) 0.
Proof.
  apply (gain_experience_only_below_requirement
           Sample.scenario_job Sample.scenario_candidate).
  right. left. reflexivity.
Defined.

(** ** Culture, experience and education *)

(** X9: when the job description is empty, or the candidate has no parsed
    resume, or the parsed resume has no summary (no key, [null], or an empty
    text), the culture sub-score is 0.5 whatever the external client would
    answer: the client is not consulted. *)
Theorem culture_fit_without_texts (env : Env) (job : Job) (candidate : Candidate) :
  description job = "" \/
  resume_parsed candidate = None \/
  (exists rp, resume_parsed candidate = Some rp /\
              (summary rp = KeyAbsent \/ summary rp = JNull \/ summary rp = JVal "")) ->
  _calculate_culture_fit env job candidate = 0.5.
Proof.
  unfold _calculate_culture_fit, candidate_summary_of.
  intros [H|[H|[rp [H [S|[S|S]]]]]]; rewrite H; try rewrite S; trivial;
    cbn [has_key item Py.truthy_str negb orb];
    destruct (description job); reflexivity.
Qed.

Lemma culture_fit_without_texts_witness :
  _calculate_culture_fit
    {| chat_completions_create := fun _ _ => ChatContent (Some "0.9");
       float := fun _ => Some (Py.Finite 0.9);
       uuid4 := "app-1"; utcnow_details := 0; utcnow_response := 0 |}
    described_job Sample.scenario_candidate = 0.5.
Proof.
  apply culture_fit_without_texts.
  right. right. eexists. split; [reflexivity|]. right. left. reflexivity.
Defined.

Lemma experience_match_of_years (job : Job) (candidate : Candidate) (r c : Q) :
  required_exp_of job = Some r -> experience_years candidate = Some c ->
  ~ r == 0 -> ~ c == 0 ->
  _calculate_experience_match job candidate = if Py.geb c r then 1.0 else c / r.
Proof.
  intros Hr Hc Nr Nc. unfold _calculate_experience_match. rewrite Hr, Hc.
  assert (Tr : Py.truthy_num (Some r) = true).
  { destruct (Py.truthy_num (Some r)) eqn:E; trivial.
    apply truthy_num_false in E. contradiction. }
  assert (Tc : Py.truthy_num (Some c) = true).
  { destruct (Py.truthy_num (Some c)) eqn:E; trivial.
    apply truthy_num_false in E. contradiction. }
  rewrite Tr, Tc. reflexivity.
Qed.

(** X10: against a positive requirement, more years never score less: for
    two candidates with positive years of experience, the one with at least
    as many years has at least as high an experience sub-score. *)
Theorem experience_match_monotone (job : Job) (candidate1 candidate2 : Candidate)
  (r c1 c2 : Q) :
  required_exp_of job = Some r -> 0 < r ->
  experience_years candidate1 = Some c1 -> experience_years candidate2 = Some c2 ->
  0 < c1 -> c1 <= c2 ->
  _calculate_experience_match job candidate1 <= _calculate_experience_match job candidate2.
Proof.
  intros Hr Pr H1 H2 P1 L.
  rewrite (experience_match_of_years job candidate1 r c1 Hr H1) by lra.
  rewrite (experience_match_of_years job candidate2 r c2 Hr H2) by lra.
  destruct (Py.geb c1 r) eqn:G1, (Py.geb c2 r) eqn:G2.
  - discriminate.
  - apply geb_true in G1. apply geb_false in G2. lra.
  - apply geb_false in G1. apply Qle_shift_div_r; trivial. lra.
  - unfold Qdiv. apply Qmult_le_compat_r; trivial.
    apply Qlt_le_weak. now apply Qinv_lt_0_compat.
Qed.

Lemma experience_match_monotone_witness :
  _calculate_experience_match Sample.scenario_job Sample.scenario_candidate
  <= _calculate_experience_match Sample.scenario_job summarised_candidate.
Proof.
  apply (experience_match_monotone _ _ _ 5 3 4); reflexivity || discriminate.
Defined.

Lemma education_match_of_levels (job : Job) (candidate : Candidate)
  (required_edu candidate_edu : string) :
  required_edu_of job = Some required_edu ->
  candidate_edu_of candidate = Some candidate_edu ->
  required_edu <> "" -> candidate_edu <> "" ->
  _calculate_education_match job candidate =
  if (last_level education_levels 0 candidate_edu
      >=? last_level education_levels 0 required_edu)%Z then 1.0
  else if (last_level education_levels 0 required_edu >? 0)%Z
       then inject_Z (last_level education_levels 0 candidate_edu)
            / inject_Z (last_level education_levels 0 required_edu)
       else 0.
Proof.
  intros Hr Hc Nr Nc. unfold _calculate_education_match. rewrite Hr, Hc.
  destruct required_edu as [|a re]; [congruence|].
  destruct candidate_edu as [|b ce]; [congruence|].
  cbn [Py.truthy_str negb orb].
  unfold education_loop. rewrite education_fold_levels. reflexivity.
Qed.

(** X11: with both education texts present, the education sub-score is 0
    exactly when the candidate's text matches no entry of the table while
    the required text matches one. *)
Theorem education_match_zero_iff (job : Job) (candidate : Candidate)
  (required_edu candidate_edu : string) :
  required_edu_of job = Some required_edu ->
  candidate_edu_of candidate = Some candidate_edu ->
  required_edu <> "" -> candidate_edu <> "" ->
  (_calculate_education_match job candidate == 0 <->
   last_level education_levels 0 candidate_edu = 0%Z /\
   (0 < last_level education_levels 0 required_edu)%Z).
Proof.
  intros Hr Hc Nr Nc.
  rewrite (education_match_of_levels job candidate _ _ Hr Hc Nr Nc).
  pose proof (last_level_nonneg candidate_edu) as Pc.
  set (rl := last_level education_levels 0 required_edu) in *.
  set (cl := last_level education_levels 0 candidate_edu) in *.
  destruct (cl >=? rl)%Z eqn:G.
  - split; [discriminate | lia].
  - assert (R : (0 < rl)%Z) by lia.
    destruct (rl >? 0)%Z eqn:G0; [|lia].
    assert (Rq : 0 < inject_Z rl).
    { change 0 with (inject_Z 0). rewrite <- Zlt_Qlt. exact R. }
    split.
    + intro E. split; trivial.
      assert (E0 : inject_Z cl == 0).
      { transitivity (inject_Z rl * (inject_Z cl / inject_Z rl)).
        - symmetry. apply Qmult_div_r. lra.
        - rewrite E. lra. }
      apply (proj1 (inject_Z_injective cl 0)). exact E0.
    + intros [E _]. rewrite E. reflexivity.
Qed.

Lemma education_match_zero_iff_witness :
  _calculate_education_match
    (Sample.job JNull JNull (JVal "Bachelor") None)
    (Sample.candidate "cand-1" [] None ["Bootcamp"] None) == 0
  <-> last_level education_levels 0 "Bootcamp" = 0%Z /\
      (0 < last_level education_levels 0 "Bachelor")%Z.
Proof.
  apply education_match_zero_iff; try reflexivity; discriminate.
Defined.

(** ** The entry point and its route *)

Lemma is_job_false (job_id organization_id : string) (j : Job) :
  is_job job_id organization_id j = false <->
  (job_id_of j = job_id -> job_organization_id j <> organization_id).
Proof.
  unfold is_job. rewrite andb_false_iff, !String.eqb_neq. split.
  - intros [H|H]; congruence.
  - intro H. destruct (string_dec (job_id_of j) job_id); auto.
Qed.

Lemma is_candidate_false (candidate_id organization_id : string) (c : Candidate) :
  is_candidate candidate_id organization_id c = false <->
  (candidate_id_of c = candidate_id -> candidate_organization_id c <> organization_id).
Proof.
  unfold is_candidate. rewrite andb_false_iff, !String.eqb_neq. split.
  - intros [H|H]; congruence.
  - intro H. destruct (string_dec (candidate_id_of c) candidate_id); auto.
Qed.

(** X13: [POST /api/fit-score] keeps organizations apart. A job id or a
    candidate id that the database does not read as a UUID is answered with
    400 and the database's message. For ids it reads as UUIDs, the answer is
    400 "Job or candidate not found" exactly when no job with that
    identifier or no candidate with that identifier belongs to the caller's
    organization, and otherwise 200 with a result computed from a job and a
    candidate of that organization. Every 400 leaves the database as it
    was. *)
Theorem fit_score_route_isolates_organizations (pg : UuidSyntax) (env : Env) (db : Db)
  (job_id candidate_id organization_id : string) :
  (parse_uuid pg job_id = None ->
   api_calculate_fit_score pg env db job_id candidate_id organization_id
   = (HTTPException 400 (uuid_error pg job_id), db)) /\
  (forall j, parse_uuid pg job_id = Some j -> parse_uuid pg candidate_id = None ->
   api_calculate_fit_score pg env db job_id candidate_id organization_id
   = (HTTPException 400 (uuid_error pg candidate_id), db)) /\
  (forall j c, parse_uuid pg job_id = Some j -> parse_uuid pg candidate_id = Some c ->
   ((forall job, In job (jobs db) -> job_id_of job = j ->
                 job_organization_id job <> organization_id) \/
    (forall candidate, In candidate (candidates db) -> candidate_id_of candidate = c ->
                 candidate_organization_id candidate <> organization_id)
    <->
    api_calculate_fit_score pg env db job_id candidate_id organization_id
    = (HTTPException 400 "Job or candidate not found", db)) /\
   (api_calculate_fit_score pg env db job_id candidate_id organization_id
    = (HTTPException 400 "Job or candidate not found", db) \/
    exists score db' job candidate,
      api_calculate_fit_score pg env db job_id candidate_id organization_id
      = (Http200 score, db') /\
      r_job_id score = job_id /\ r_candidate_id score = candidate_id /\
      In job (jobs db) /\ job_id_of job = j /\
      job_organization_id job = organization_id /\
      In candidate (candidates db) /\ candidate_id_of candidate = c /\
      candidate_organization_id candidate = organization_id /\
      r_overall_score score = overall_score_of (individual_scores env job candidate))) /\
  (forall status detail db',
   api_calculate_fit_score pg env db job_id candidate_id organization_id
   = (HTTPException status detail, db') -> status = 400%nat /\ db' = db).
Proof.
  unfold api_calculate_fit_score. split; [|split; [|split]].
  - intros ->. reflexivity.
  - intros j -> ->. reflexivity.
  - intros j c -> ->.
    destruct (find (is_job j organization_id) (jobs db)) as [job|] eqn:Fj.
    + destruct (find (is_candidate c organization_id) (candidates db))
        as [candidate|] eqn:Fc.
      * destruct (calculate_fit_score_returns env db j c organization_id
                    job candidate Fj Fc)
          as (r & db' & Hr & _ & _ & _ & _ & _ & _ & _ & Ho & _).
        rewrite Hr.
        apply find_some in Fj. destruct Fj as [Hjin Hjp].
        unfold is_job in Hjp. apply andb_true_iff in Hjp. destruct Hjp as [J1 J2].
        apply String.eqb_eq in J1, J2.
        apply find_some in Fc. destruct Fc as [Hcin Hcp].
        unfold is_candidate in Hcp. apply andb_true_iff in Hcp. destruct Hcp as [C1 C2].
        apply String.eqb_eq in C1, C2.
        split.
        -- split; [|discriminate]. intros [H|H]; exfalso.
           ++ now apply (H job Hjin J1).
           ++ now apply (H candidate Hcin C1).
        -- right. exists (with_request_ids job_id candidate_id r), db', job, candidate.
           repeat (split; trivial).
      * unfold calculate_fit_score. rewrite Fj, Fc. cbn [exn_str]. split; [|now left].
        split; trivial. intros _. right. intros x Hin.
        apply is_candidate_false. now apply (proj1 (find_none_iff _ _) Fc).
    + unfold calculate_fit_score. rewrite Fj. cbn [exn_str]. split; [|now left].
      split; trivial. intros _. left. intros x Hin.
      apply is_job_false. now apply (proj1 (find_none_iff _ _) Fj).
  - intros status detail db'.
    destruct (parse_uuid pg job_id) as [j|]; [|intros [= <- _ <-]; auto].
    destruct (parse_uuid pg candidate_id) as [c|]; [|intros [= <- _ <-]; auto].
    destruct (calculate_fit_score env db j c organization_id) as [[r d]|e];
      [discriminate | intros [= <- _ <-]; auto].
Qed.

Lemma fit_score_route_isolates_organizations_witness :
  api_calculate_fit_score sample_uuid_syntax (Sample.env 0) Sample.scenario_db
    "not-a-uuid" "cand-1" "org-1"
  = (HTTPException 400 "invalid input syntax for type uuid", Sample.scenario_db) /\
  (api_calculate_fit_score sample_uuid_syntax (Sample.env 0) Sample.scenario_db
     "job-1" "cand-1" "org-2"
   = (HTTPException 400 "Job or candidate not found", Sample.scenario_db)).
Proof.
  split.
  - apply (proj1 (fit_score_route_isolates_organizations sample_uuid_syntax (Sample.env 0)
                    Sample.scenario_db "not-a-uuid" "cand-1" "org-1")).
    reflexivity.
  - apply (proj1 (proj1 (proj2 (proj2 (fit_score_route_isolates_organizations
                    sample_uuid_syntax (Sample.env 0)
                    Sample.scenario_db "job-1" "cand-1" "org-2")))
                    "job-1" "cand-1" eq_refl eq_refl)).
    left. simpl. intros job [<-|[]] _. discriminate.
Defined.

(** X14: what a returning call stores is what it returns: afterwards the
    first row of the pair carries the identifier, the overall score and the
    sub-scores of the response. *)
Theorem stored_score_is_returned_score (env : Env) (db db' : Db)
  (job_id candidate_id organization_id : string) (r : FitScoreResponse) :
  calculate_fit_score env db job_id candidate_id organization_id = Ok (r, db') ->
  exists row,
    find (is_application job_id candidate_id) (applications db') = Some row /\
    application_id_of row = r_application_id r /\
    fit_score row = Some (r_overall_score r) /\
    fit_score_details row
    = Some {| details_scores := response_scores r;
              details_weights := weights;
              calculated_at := utcnow_details env |}.
Proof.
  intro H. destruct (scored_row _ _ _ _ _ _ _ H) as (row & F & Hid & Hs & Hd & _).
  exists row. auto.
Qed.

Lemma stored_score_is_returned_score_witness :
  exists r db' row,
    calculate_fit_score (Sample.env 0) rescored_db "job-1" "cand-1" "org-1" = Ok (r, db') /\
    find (is_application "job-1" "cand-1") (applications db') = Some row /\
    fit_score row = Some (r_overall_score r).
Proof.
  destruct (stored_score_is_returned_score (Sample.env 0) rescored_db _
              "job-1" "cand-1" "org-1" _ eq_refl) as (row & F & _ & Hs & _).
  eexists; eexists; exists row. split; [reflexivity|]. split; assumption.
Defined.

Lemma filter_update_first_length (q p : Application -> bool)
  (f : Application -> Application) (l : list Application) :
  (forall x, q (f x) = q x) ->
  List.length (filter q (update_first p f l)) = List.length (filter q l).
Proof.
  intro Hq. induction l as [|a l IH]; simpl; trivial.
  destruct (p a); simpl.
  - rewrite Hq. destruct (q a); reflexivity.
  - destruct (q a); simpl; now rewrite IH.
Qed.

Lemma filter_none (p : Application -> bool) (l : list Application) :
  find p l = None -> filter p l = [].
Proof.
  induction l as [|a l IH]; simpl; trivial.
  destruct (p a); [discriminate | exact IH].
Qed.

(** X15: a returning call adds no row when the pair already has one and
    exactly one row when it has none, and it keeps the invariant of the
    unique index on (job, candidate): if no pair had more than one row
    before the call, none has afterwards. *)
Theorem scoring_keeps_pairs_unique (env : Env) (db db' : Db)
  (job_id candidate_id organization_id : string) (r : FitScoreResponse) :
  calculate_fit_score env db job_id candidate_id organization_id = Ok (r, db') ->
  List.length (applications db')
  = (List.length (applications db)
     + match find (is_application job_id candidate_id) (applications db) with
       | Some _ => 0
       | None => 1
       end)%nat /\
  pair_count db' job_id candidate_id = Nat.max 1 (pair_count db job_id candidate_id) /\
  (unique_pairs db -> unique_pairs db').
Proof.
  unfold calculate_fit_score, unique_pairs, pair_count.
  destruct (find (is_job _ _) (jobs db)) as [job|]; [|discriminate].
  destruct (find (is_candidate _ _) (candidates db)) as [candidate|]; [|discriminate].
  destruct (find (is_application _ _) (applications db)) as [old|] eqn:F;
    intros [= <- <-]; cbn [applications].
  - assert (P : forall q_job q_cand,
               List.length (filter (is_application q_job q_cand)
                              (update_first (is_application job_id candidate_id)
                                 (set_fit_score
                                    (overall_score_of (individual_scores env job candidate))
                                    {| details_scores := individual_scores env job candidate;
                                       details_weights := weights;
                                       calculated_at := utcnow_details env |})
                                 (applications db)))
               = List.length (filter (is_application q_job q_cand) (applications db))).
    { intros. apply filter_update_first_length. reflexivity. }
    split; [|split].
    + pose proof (update_first_split (is_application job_id candidate_id)
                    (set_fit_score
                       (overall_score_of (individual_scores env job candidate))
                       {| details_scores := individual_scores env job candidate;
                          details_weights := weights;
                          calculated_at := utcnow_details env |})
                    _ _ F) as (before & after & E & _ & U).
      rewrite U, E, !length_app. simpl. lia.
    + rewrite P.
      assert (0 < List.length (filter (is_application job_id candidate_id)
                                 (applications db)))%nat.
      { apply find_some in F. destruct F as [Hin Hp].
        assert (Hf : In old (filter (is_application job_id candidate_id)
                               (applications db))) by (apply filter_In; auto).
        destruct (filter _ (applications db)); [contradiction | simpl; lia]. }
      lia.
    + intros U q_job q_cand. rewrite P. apply U.
  - split; [|split].
    + rewrite length_app. reflexivity.
    + rewrite filter_app, (filter_none _ _ F). cbn [filter].
      rewrite is_application_refl. reflexivity.
    + intros U q_job q_cand. rewrite filter_app, length_app. cbn [filter].
      destruct (is_application q_job q_cand _) eqn:Q; cbn [List.length].
      * unfold is_application in Q. cbn in Q. apply andb_true_iff in Q.
        destruct Q as [Q1 Q2]. apply String.eqb_eq in Q1, Q2. subst q_job q_cand.
        rewrite (filter_none _ _ F). simpl. lia.
      * pose proof (U q_job q_cand). lia.
Qed.

Lemma scoring_keeps_pairs_unique_witness :
  exists r db',
    calculate_fit_score (Sample.env 0) Sample.scenario_db "job-1" "cand-1" "org-1"
    = Ok (r, db') /\
    unique_pairs db'.
Proof.
  eexists; eexists. split; [reflexivity|].
  apply (proj2 (proj2 (scoring_keeps_pairs_unique (Sample.env 0) Sample.scenario_db _
                         "job-1" "cand-1" "org-1" _ eq_refl))).
  intros j c. unfold pair_count. simpl. lia.
Defined.

(** ** Scoring, then ranking *)

Lemma find_some_exists {A} (p : A -> bool) (l : list A) (x : A) :
  In x l -> p x = true -> exists y, find p l = Some y.
Proof.
  intros Hin Hp. destruct (find p l) as [y|] eqn:F; [now exists y|].
  pose proof (proj1 (find_none_iff p l) F x Hin). congruence.
Qed.

(** X16: a candidate who has just been scored appears in the ranking of
    the job: after a returning call, for every order the database may give
    rows of equal score and a limit that covers the table, the ranking
    holds an entry for the stored row, with the candidate's identifier and
    the overall score of the response, provided a row the pair already had
    belongs to the same organization. *)
Theorem scored_candidate_is_ranked
  (order_by : list Application -> list Application) (env : Env) (db db' : Db)
  (job_id candidate_id organization_id : string) (r : FitScoreResponse) (limit : nat) :
  sql_order_by_desc order_by ->
  calculate_fit_score env db job_id candidate_id organization_id = Ok (r, db') ->
  (forall old, find (is_application job_id candidate_id) (applications db) = Some old ->
               application_organization_id old = organization_id) ->
  (List.length (applications db') <= limit)%nat ->
  exists entry,
    In entry (get_top_candidates order_by db' job_id organization_id limit) /\
    application_id_of (rc_application entry) = r_application_id r /\
    candidate_id_of (rc_candidate entry) = candidate_id /\
    rc_fit_score entry == r_overall_score r.
Proof.
  intros Hsql H Hold Hlimit.
  destruct (scored_row _ _ _ _ _ _ _ H) as (row & F & Hid & Hs & _ & Horg).
  destruct (scored_row_is_found _ _ _ _ _ _ _ H) as (_ & Hcands & _).
  assert (Hc : exists c, In c (candidates db') /\ candidate_id_of c = candidate_id).
  { rewrite Hcands. revert H. unfold calculate_fit_score.
    destruct (find (is_job _ _) (jobs db)); [|discriminate].
    destruct (find (is_candidate _ _) (candidates db)) as [c|] eqn:Fc; [|discriminate].
    intros _. apply find_some in Fc. destruct Fc as [Hin Hp].
    unfold is_candidate in Hp. apply andb_true_iff in Hp. destruct Hp as [P _].
    apply String.eqb_eq in P. now exists c. }
  apply find_some in F. destruct F as [Hin Hp].
  unfold is_application in Hp. apply andb_true_iff in Hp. destruct Hp as [Pj Pc].
  apply String.eqb_eq in Pj, Pc.
  assert (Ho : application_organization_id row = organization_id).
  { rewrite Horg. destruct (find _ (applications db)) as [old|] eqn:Fo; trivial.
    now apply Hold. }
  unfold get_top_candidates. rewrite results_loop. cbn [app].
  set (selected := filter _ (applications db')).
  destruct (Hsql selected) as [Hperm _].
  assert (Hsel : In row selected).
  { apply filter_In. split; trivial. rewrite Pj, Ho, !String.eqb_refl. reflexivity. }
  assert (Hrows : In row (firstn limit (order_by selected))).
  { rewrite firstn_all2.
    - now apply (Permutation_in _ Hperm).
    - rewrite <- (Permutation_length Hperm).
      eapply Nat.le_trans; [apply filter_length_le | exact Hlimit]. }
  destruct Hc as (c & Hcin & Hcid).
  destruct (find_some_exists
              (fun c => (candidate_id_of c =? application_candidate_id row)%string)
              (candidates db') c Hcin) as [c' Fc'].
  { rewrite Hcid, Pc. apply String.eqb_refl. }
  exists {| rc_candidate := c';
            rc_application := row;
            rc_fit_score := Py.or_num (fit_score row) 0;
            rc_fit_score_details := fit_score_details row |}.
  split; [|split; [|split]]; cbn [rc_application rc_candidate rc_fit_score].
  - apply in_flat_map. exists row. split; trivial.
    unfold ranked_entry. rewrite Fc'. now left.
  - exact Hid.
  - apply find_some in Fc'. destruct Fc' as [_ E]. apply String.eqb_eq in E. congruence.
  - rewrite Hs. apply or_num_some.
Qed.

Lemma scored_candidate_is_ranked_witness :
  exists r db' entry,
    calculate_fit_score (Sample.env 0) Sample.scenario_db "job-1" "cand-1" "org-1"
    = Ok (r, db') /\
    In entry (get_top_candidates storage_order_by_desc db' "job-1" "org-1" 10) /\
    rc_fit_score entry == r_overall_score r.
Proof.
  destruct (scored_candidate_is_ranked storage_order_by_desc (Sample.env 0)
              Sample.scenario_db _ "job-1" "cand-1" "org-1" _ 10
              storage_order_is_sql_order eq_refl)
    as (entry & Hin & _ & _ & Hs).
  - simpl. discriminate.
  - simpl. lia.
  - eexists; eexists; exists entry. split; [reflexivity|]. split; assumption.
Defined.

(** ** The simple score of [utils.py] *)

Lemma in_lower_set (skills : list string) (x : string) :
  In x (lower_set skills) <-> exists s, In s skills /\ Py.lower s = x.
Proof.
  unfold lower_set. rewrite nodup_In, in_map_iff. split; intros [s [H1 H2]]; eauto.
Qed.

Lemma set_mem_true (x : string) (s : list string) : set_mem x s = true <-> In x s.
Proof.
  unfold set_mem. rewrite existsb_exists. split.
  - intros [y [Hin E]]. apply String.eqb_eq in E. now subst.
  - intro H. exists x. split; trivial. apply String.eqb_refl.
Qed.

Lemma filter_length_all {A} (p : A -> bool) (l : list A) :
  List.length (filter p l) = List.length l <-> forall x, In x l -> p x = true.
Proof.
  induction l as [|a l IH]; simpl.
  - split; [intros _ x [] | reflexivity].
  - pose proof (filter_length_le p l) as Hle. destruct (p a) eqn:E; simpl; split.
    + intros H x [<-|Hx]; trivial. apply IH; [lia | exact Hx].
    + intro H. f_equal. apply IH. auto.
    + intro H. lia.
    + intro H. rewrite (H a (or_introl eq_refl)) in E. discriminate.
Qed.

Lemma filter_length_none {A} (p : A -> bool) (l : list A) :
  List.length (filter p l) = 0%nat <-> forall x, In x l -> p x = false.
Proof.
  induction l as [|a l IH]; simpl.
  - split; [intros _ x [] | reflexivity].
  - destruct (p a) eqn:E; simpl; split.
    + discriminate.
    + intro H. rewrite (H a (or_introl eq_refl)) in E. discriminate.
    + intros H x [<-|Hx]; trivial. now apply IH.
    + intro H. apply IH. auto.
Qed.

Lemma nat_ratio_one (m n : nat) :
  (0 < n)%nat ->
  (inject_Z (Z.of_nat m) / inject_Z (Z.of_nat n) == 1 <-> m = n).
Proof.
  intro Hn. pose proof (inject_nat_pos n Hn) as P. split.
  - intro E. apply Nat2Z.inj. apply inject_Z_injective.
    transitivity (inject_Z (Z.of_nat n)
                  * (inject_Z (Z.of_nat m) / inject_Z (Z.of_nat n))).
    + symmetry. apply Qmult_div_r. lra.
    + rewrite E. lra.
  - intros ->. unfold Qdiv. apply Qmult_inv_r. lra.
Qed.

Lemma nat_ratio_zero (m n : nat) :
  (0 < n)%nat ->
  (inject_Z (Z.of_nat m) / inject_Z (Z.of_nat n) == 0 <-> m = 0%nat).
Proof.
  intro Hn. pose proof (inject_nat_pos n Hn) as P. split.
  - intro E. apply Nat2Z.inj. apply inject_Z_injective.
    transitivity (inject_Z (Z.of_nat n)
                  * (inject_Z (Z.of_nat m) / inject_Z (Z.of_nat n))).
    + symmetry. apply Qmult_div_r. lra.
    + rewrite E, Qmult_0_r. reflexivity.
  - intros ->. reflexivity.
Qed.

Lemma lower_set_not_empty (j : string) (js : list string) :
  (0 < List.length (lower_set (j :: js)))%nat.
Proof.
  assert (H : In (Py.lower j) (lower_set (j :: js))).
  { apply in_lower_set. exists j. split; [now left | reflexivity]. }
  destruct (lower_set (j :: js)); [contradiction | simpl; lia].
Qed.

(** X17: the simple score lies in [0,1]; for two lists that are not empty
    it is 1 exactly when the candidate's list holds every job skill, up to
    case, and 0 exactly when it holds none of them; repeated skills count
    once. *)
Theorem simple_score_extremes (job_skills candidate_skills : list string) :
  0 <= calculate_fit_score_simple job_skills candidate_skills <= 1 /\
  (job_skills <> [] -> candidate_skills <> [] ->
   (calculate_fit_score_simple job_skills candidate_skills == 1 <->
    forall skill, In skill job_skills -> has_skill candidate_skills skill) /\
   (calculate_fit_score_simple job_skills candidate_skills == 0 <->
    forall skill, In skill job_skills -> ~ has_skill candidate_skills skill)).
Proof.
  unfold calculate_fit_score_simple.
  destruct job_skills as [|j js]; [split; [split; discriminate | congruence]|].
  destruct candidate_skills as [|c cs]; [split; [split; discriminate | congruence]|].
  set (job_set := lower_set (j :: js)). set (candidate_set := lower_set (c :: cs)).
  pose proof (lower_set_not_empty j js) as Hn. fold job_set in Hn.
  pose proof (inject_nat_pos _ Hn) as Pn.
  pose proof (filter_length_le (fun s => set_mem s candidate_set) job_set) as Hle.
  assert (Hmem : forall skill, In skill (j :: js) ->
            (set_mem (Py.lower skill) candidate_set = true
             <-> has_skill (c :: cs) skill)).
  { intros skill _. rewrite set_mem_true. unfold candidate_set.
    rewrite in_lower_set. reflexivity. }
  split; [|intros _ _; split].
  - split.
    + apply Qle_shift_div_l; trivial. rewrite Qmult_0_l.
      change 0 with (inject_Z 0). rewrite <- Zle_Qle. lia.
    + apply Qle_shift_div_r; trivial. rewrite Qmult_1_l.
      rewrite <- Zle_Qle. lia.
  - rewrite (nat_ratio_one _ _ Hn), filter_length_all. split.
    + intros H skill Hin. apply (Hmem skill Hin). apply H.
      apply in_lower_set. now exists skill.
    + intros H x Hx. apply in_lower_set in Hx. destruct Hx as [skill [Hin <-]].
      apply (Hmem skill Hin). now apply H.
  - rewrite (nat_ratio_zero _ _ Hn), filter_length_none. split.
    + intros H skill Hin Hs. apply (Hmem skill Hin) in Hs.
      rewrite H in Hs; [discriminate|]. apply in_lower_set. now exists skill.
    + intros H x Hx. apply in_lower_set in Hx. destruct Hx as [skill [Hin <-]].
      destruct (set_mem (Py.lower skill) candidate_set) eqn:E; trivial.
      exfalso. apply (H skill Hin). now apply (Hmem skill Hin).
Qed.

Lemma simple_score_extremes_witness :
  calculate_fit_score_simple ["Python"; "python"; "AWS"] ["PYTHON"; "aws"; "Go"] == 1
  <-> forall skill, In skill ["Python"; "python"; "AWS"] ->
                    has_skill ["PYTHON"; "aws"; "Go"] skill.
Proof.
  apply (proj2 (simple_score_extremes ["Python"; "python"; "AWS"] ["PYTHON"; "aws"; "Go"]));
    discriminate.
Defined.

Lemma overlap_gives_credit (cs : list string) (j c : string) :
  In c cs -> skills_overlap j c -> 0.8 <= first_match_credit cs j.
Proof.
  intros Hin O.
  destruct (first_match_credit_cases cs j) as [E|[E|E]]; rewrite E; try discriminate.
  exfalso. assert (Z0 : first_match_credit cs j == 0) by (rewrite E; reflexivity).
  exact (proj1 (first_match_credit_zero cs j) Z0 c Hin O).
Qed.

Lemma simple_score_zero_or_held (js cs : list string) :
  calculate_fit_score_simple js cs == 0
  \/ exists skill, In skill js /\ has_skill cs skill.
Proof.
  unfold calculate_fit_score_simple.
  destruct js as [|j js]; [now left|]. destruct cs as [|c cs]; [now left|].
  destruct (filter (fun s => set_mem s (lower_set (c :: cs))) (lower_set (j :: js)))
    as [|x l] eqn:F.
  - left. unfold Qdiv. simpl inject_Z. apply Qmult_0_l.
  - right. assert (Hx : In x (x :: l)) by now left.
    rewrite <- F in Hx. apply filter_In in Hx. destruct Hx as [Hx Hm].
    apply in_lower_set in Hx. destruct Hx as [skill [Hin <-]].
    exists skill. split; trivial.
    apply set_mem_true in Hm. apply in_lower_set in Hm. exact Hm.
Qed.

Lemma Qsum_member_le (l : list Q) (x : Q) :
  Forall (fun y => 0 <= y) l -> In x l -> x <= Qsum l.
Proof.
  induction 1 as [|y l Hy Hl IH]; [intros []|].
  change (Qsum (y :: l)) with (y + Qsum l).
  assert (0 <= Qsum l).
  { clear IH. induction Hl as [|z l Hz _ IHl]; [discriminate|].
    change (Qsum (z :: l)) with (z + Qsum l). lra. }
  intros [->|Hin]; [lra|]. specialize (IH Hin). lra.
Qed.

(** X18: the skill sub-score of the service is positive wherever the simple
    score is: if the simple score of the two skill lists is above 0, the
    service's skill sub-score for a job and a candidate with these lists is
    at least 0.8 divided by the number of required skills. *)
Theorem simple_match_implies_skill_match (job : Job) (candidate : Candidate)
  (js cs : list string) :
  job_skills_of job = Some js -> skills candidate = Some cs ->
  0 < calculate_fit_score_simple js cs ->
  0.8 / inject_Z (Z.of_nat (List.length js)) <= _calculate_skill_match job candidate.
Proof.
  intros Hj Hc Hpos.
  assert (Nj : js <> []) by (intros ->; revert Hpos; discriminate).
  assert (Nc : cs <> []).
  { intros ->. revert Hpos. unfold calculate_fit_score_simple.
    destruct js; discriminate. }
  assert (Hex : exists skill, In skill js /\ has_skill cs skill).
  { destruct (simple_score_zero_or_held js cs) as [Z0|Hex]; trivial.
    rewrite Z0 in Hpos. revert Hpos. discriminate. }
  destruct Hex as (skill & Hin & c & Hcin & Hl).
  assert (O : skills_overlap skill c).
  { left. rewrite Hl. apply contains_iff. apply contains_refl. }
  rewrite (skill_match_unclamped job candidate js cs Hj Hc Nj Nc).
  assert (Hn : 0 < inject_Z (Z.of_nat (List.length js))).
  { apply inject_nat_pos. destruct js; [congruence | simpl; lia]. }
  unfold Qdiv. apply Qmult_le_compat_r.
  - apply Qle_trans with (first_match_credit cs skill).
    + now apply (overlap_gives_credit cs skill c).
    + apply Qsum_member_le; [|now apply in_map].
      apply Forall_forall. intros x Hx. apply in_map_iff in Hx.
      destruct Hx as [j0 [<- _]].
      destruct (first_match_credit_cases cs j0) as [E|[E|E]]; rewrite E; discriminate.
  - apply Qlt_le_weak. now apply Qinv_lt_0_compat.
Qed.

Lemma simple_match_implies_skill_match_witness :
  0.8 / inject_Z (Z.of_nat 2)
  <= _calculate_skill_match Sample.scenario_job Sample.scenario_candidate.
Proof.
  apply (simple_match_implies_skill_match _ _ ["Python"; "AWS"] ["python"; "Docker"]);
    reflexivity.
Defined.

(** ** Skill match: a longer candidate list *)

Lemma find_app_some {A} (p : A -> bool) (l l' : list A) (x : A) :
  find p l = Some x -> find p (l ++ l') = Some x.
Proof.
  induction l as [|a l IH]; simpl; [discriminate|].
  destruct (p a); auto.
Qed.

Lemma first_match_credit_app (cs extra : list string) (j : string) :
  first_match_credit cs j <= first_match_credit (cs ++ extra) j.
Proof.
  unfold first_match_credit.
  destruct (find _ cs) as [c|] eqn:F.
  - rewrite (find_app_some _ cs extra c F). apply Qle_refl.
  - destruct (find _ (cs ++ extra)); [|discriminate].
    destruct (_ =? _)%string; discriminate.
Qed.

Lemma Qsum_map_le {A} (f g : A -> Q) (l : list A) :
  (forall x, f x <= g x) -> Qsum (map f l) <= Qsum (map g l).
Proof.
  intro H. induction l as [|a l IH]; simpl; [discriminate|].
  change (Qsum (?x :: ?t)) with (x + Qsum t).
  specialize (H a). unfold Qsum in *. lra.
Qed.

(** X19: skills added at the end of a candidate's list never lower the
    skill sub-score: for the same job, a candidate whose list continues
    another candidate's list scores at least as much. *)
Theorem skill_match_grows_with_appended_skills (job : Job)
  (candidate candidate' : Candidate) (cs extra : list string) :
  skills candidate = Some cs -> skills candidate' = Some (cs ++ extra) ->
  _calculate_skill_match job candidate <= _calculate_skill_match job candidate'.
Proof.
  intros Hc Hc'.
  destruct (job_skills_of job) as [[|j js]|] eqn:Hj;
    try (unfold _calculate_skill_match; rewrite Hj; discriminate).
  destruct cs as [|c cs].
  - apply Qle_trans with 0; [|apply skill_match_range].
    unfold _calculate_skill_match. rewrite Hj, Hc. discriminate.
  - rewrite (skill_match_unclamped job candidate (j :: js) (c :: cs) Hj Hc)
      by discriminate.
    rewrite (skill_match_unclamped job candidate' (j :: js) ((c :: cs) ++ extra) Hj Hc')
      by discriminate.
    unfold Qdiv. apply Qmult_le_compat_r.
    + apply Qsum_map_le. intro x. apply first_match_credit_app.
    + apply Qlt_le_weak. apply Qinv_lt_0_compat. apply inject_nat_pos. simpl. lia.
Qed.

Lemma skill_match_grows_with_appended_skills_witness :
  _calculate_skill_match Sample.scenario_job Sample.scenario_candidate
  <= _calculate_skill_match Sample.scenario_job
       (Sample.candidate "cand-1" ["python"; "Docker"; "AWS"] (Some 3) [] None).
Proof.
  apply (skill_match_grows_with_appended_skills _ _ _ ["python"; "Docker"] ["AWS"]);
    reflexivity.
Defined.
